(** * MemOS, [memos/mem_cube/utils.py]: merging a cube configuration with a default

    The development embeds [merge_config_with_default] twice, both times from
    the Python source:

    - [Tree]: value semantics.  A dumped configuration is a JSON tree
      ([json]); a Python [dict] is a finite map from strings ([gmap]), whose
      extensional equality is Python's [==] on dicts.  Every operation that
      can raise in Python returns a [result].
    - [Store]: reference semantics.  Dicts and lists are objects in a store,
      values hold references, [copy.deepcopy] allocates and item assignment
      mutates.  This model carries the aliasing the source creates and is the
      one used for the frame property of the merge.

    The [logger] calls of the source only format values that were already
    computed; they are left out of both models.  [download_repo], the other
    function of the file, is two library calls ([tempfile.mkdtemp],
    [subprocess.run]) and is not modelled.

    Layout: the two models and the vocabulary of the statements, sample
    configurations, then the lemmas and theorems of the value semantics
    ([TreeFacts]), of the reference semantics ([StoreFacts]), and further
    properties of the merge ([TreeMore], [StoreMore]). *)

From Stdlib Require Import ZArith Floats.SpecFloat.
From stdpp Require Import base option list strings gmap fin_maps fin_sets.

#[local] Set Warnings "-register-all".
#[local] Open Scope string_scope.

(** ** Python values and exceptions *)

(** The exceptions the modelled code can raise.  [SystemError] is the store
    model's answer to a reference that points outside the store, which no
    Python program can build. *)
Inductive exn : Type :=
| AttributeError
| KeyError
| TypeError
| RecursionError
| ValidationError
| SystemError.

Inductive result (A : Type) : Type :=
| Ok (a : A)
| Raise (e : exn).
Arguments Ok {A} a.
Arguments Raise {A} e.

#[global] Instance result_ret : MRet result := fun _ a => Ok a.
#[global] Instance result_bind : MBind result := fun _ _ f m =>
  match m with
  | Ok a => f a
  | Raise e => Raise e
  end.

(** What [model_dump(mode="json")] can produce: [None], booleans, integers,
    floats, strings, lists and string-keyed dicts. *)
Inductive json : Type :=
| JNone
| JBool (b : bool)
| JInt (z : Z)
| JFloat (f : spec_float)
| JStr (s : string)
| JList (l : list json)
| JDict (d : gmap string json).

Module Tree.

Abbreviation dict := (gmap string json).

(** [k in s] for two strings: substring test. *)
Fixpoint is_substring (k s : string) : bool :=
  String.prefix k s ||
  match s with
  | EmptyString => false
  | String _ s' => is_substring k s'
  end.

(** Python truth value of a dumped value. *)
Definition truthy (v : json) : bool :=
  match v with
  | JNone => false
  | JBool b => b
  | JInt z => negb (z =? 0)%Z
  | JFloat (S754_zero _) => false
  | JFloat _ => true
  | JStr s => negb (String.eqb s "")
  | JList l => negb (bool_decide (l = []))
  | JDict d => negb (bool_decide (d = ∅))
  end.

(** [k in v] *)
Definition py_contains (k : string) (v : json) : result bool :=
  match v with
  | JDict d => Ok (bool_decide (is_Some (d !! k)))
  | JList l =>
      Ok (existsb (fun x => match x with JStr s => String.eqb s k | _ => false end) l)
  | JStr s => Ok (is_substring k s)
  | _ => Raise TypeError
  end.

(** [v.get(k, dflt)]: only dicts have the method. *)
Definition py_get (v : json) (k : string) (dflt : json) : result json :=
  match v with
  | JDict d => Ok (default dflt (d !! k))
  | _ => Raise AttributeError
  end.

(** [v[k]] with a string key. *)
Definition py_getitem (v : json) (k : string) : result json :=
  match v with
  | JDict d =>
      match d !! k with
      | Some x => Ok x
      | None => Raise KeyError
      end
  | _ => Raise TypeError
  end.

(** [v[k] = x] with a string key; the updated container is returned. *)
Definition py_setitem (v : json) (k : string) (x : json) : result json :=
  match v with
  | JDict d => Ok (JDict (<[k:=x]> d))
  | _ => Raise TypeError
  end.

(** [v.items()] *)
Definition py_items (v : json) : result dict :=
  match v with
  | JDict d => Ok d
  | _ => Raise AttributeError
  end.

(** ** The merge, lines 59-113 of the source *)

Definition preserve_fields : gset string :=
  {[ "user_id"; "cube_id"; "config_filename"; "model_schema" ]}.

Definition preserve_graph_fields : gset string :=
  {[ "auto_create"; "user_name"; "use_multi_db" ]}.

(** Body of the loop of lines 81-86; [acc] is [merged_graph_config] so far,
    or the exception an earlier iteration raised. *)
Definition overwrite_step (key : string) (value : json) (acc : result json)
  : result json :=
  merged_graph_config ← acc;
  if decide (key ∈ preserve_graph_fields) then mret merged_graph_config
  else py_setitem merged_graph_config key value.

(** Lines 80-86: the copy of the existing graph configuration, overwritten
    with every non-preserved item of the default one.  The items are distinct
    keys, so the order in which [map_fold] visits them does not show in the
    result. *)
Definition overwrite_loop (existing_graph_config : json) (items : dict)
  : result json :=
  map_fold overwrite_step (Ok existing_graph_config) items.

(** Lines 80-94. *)
Definition merged_graph_config (existing_graph_config default_graph_config : json)
  : result json :=
  items ← py_items default_graph_config;
  merged ← overwrite_loop existing_graph_config items;
  default_multi ← py_get default_graph_config "use_multi_db" (JBool true);
  if negb (truthy default_multi) then
    merged_multi ← py_get merged "use_multi_db" (JBool true);
    if truthy merged_multi then
      m1 ← py_setitem merged "use_multi_db" (JBool false);
      db_name ← py_get m1 "db_name" JNone;
      m2 ← py_setitem m1 "user_name" db_name;
      default_db_name ← py_get default_graph_config "db_name" JNone;
      py_setitem m2 "db_name" default_db_name
    else mret merged
  else mret merged.

(** Lines 63-99: [None] when no graph section is carried over. *)
Definition preserved_graph_db (existing_dict default_dict : dict)
  : result (option json) :=
  match existing_dict !! "text_mem", default_dict !! "text_mem" with
  | Some existing_text_mem, Some default_text_mem =>
      existing_text_config ← py_get existing_text_mem "config" (JDict ∅);
      default_text_config ← py_get default_text_mem "config" (JDict ∅);
      in_existing ← py_contains "graph_db" existing_text_config;
      in_both ← (if in_existing : bool then py_contains "graph_db" default_text_config
                 else mret false);
      if in_both : bool then
        existing_graph_db ← py_getitem existing_text_config "graph_db";
        existing_graph_config ← py_getitem existing_graph_db "config";
        default_graph_db ← py_getitem default_text_config "graph_db";
        default_graph_config ← py_getitem default_graph_db "config";
        merged ← merged_graph_config existing_graph_config default_graph_config;
        backend ← py_getitem existing_graph_db "backend";
        mret (Some (JDict {[ "backend" := backend; "config" := merged ]}))
      else mret None
  | _, _ => mret None
  end.

(** Lines 105-108.  The fields are distinct keys, so the iteration order of
    the Python set does not show in the result. *)
Definition restore_fields (existing_dict merged_dict : dict) : dict :=
  set_fold (fun field acc =>
              match existing_dict !! field with
              | Some v => <[field:=v]> acc
              | None => acc
              end) merged_dict preserve_fields.

(** Lines 110-112: [merged_dict["text_mem"]["config"]["graph_db"] = g]. *)
Definition restore_graph_db (merged_dict : dict) (g : json) : result dict :=
  text_mem ← py_getitem (JDict merged_dict) "text_mem";
  config ← py_getitem text_mem "config";
  config' ← py_setitem config "graph_db" g;
  text_mem' ← py_setitem text_mem "config" config';
  mret (<["text_mem" := text_mem']> merged_dict).

(** Lines 59-113: the tree handed to [model_validate]. *)
Definition merged_dict (existing_dict default_dict : dict) : result dict :=
  preserved ← preserved_graph_db existing_dict default_dict;
  let merged := restore_fields existing_dict default_dict in
  match preserved with
  | Some g =>
      if truthy g && bool_decide (is_Some (merged !! "text_mem"))
      then restore_graph_db merged g
      else mret merged
  | None => mret merged
  end.

(** Lines 34-121.  [GeneralMemCubeConfig] is declared outside this file: the
    record type and its two conversions are parameters.  [model_validate]
    returns [None] where pydantic raises. *)
Section Config.
Context {Config : Type}.
Variable model_dump : Config -> dict.
Variable model_validate : dict -> option Config.

Definition merge_config_with_default (existing_config default_config : Config)
  : result Config :=
  let existing_dict := model_dump existing_config in
  let default_dict := model_dump default_config in
  merged ← merged_dict existing_dict default_dict;
  match model_validate merged with
  | Some merged_config => Ok merged_config
  | None => Raise ValidationError
  end.
End Config.

(** ** Vocabulary of the statements *)

(** The value found by following dict keys from [v]; the empty path is [v]
    itself. *)
Fixpoint lookup_path (p : list string) (v : json) : option json :=
  match p with
  | [] => Some v
  | k :: p' =>
      match v with
      | JDict d => d !! k ≫= lookup_path p'
      | _ => None
      end
  end.

Definition graph_db_path : list string := ["text_mem"; "config"; "graph_db"].

(** The graph configuration, respectively the backend tag, of a dumped cube
    configuration. *)
Definition graph_config (c : dict) : option json :=
  lookup_path (graph_db_path ++ ["config"]) (JDict c).

Definition graph_backend (c : dict) : option json :=
  lookup_path (graph_db_path ++ ["backend"]) (JDict c).

(** The map the loop of lines 81-86 leaves: the default's entries outside the
    preserved set, over the existing ones. *)
Definition overwritten (existing_graph_config default_graph_config : dict) : dict :=
  filter (fun kv => kv.1 ∉ preserve_graph_fields) default_graph_config
    ∪ existing_graph_config.

(** The nesting the schema gives every cube configuration: [text_mem], when
    present, is a dict, and so is its [config]. *)
Definition well_shaped (c : dict) : Prop :=
  ∀ tm, c !! "text_mem" = Some tm →
    ∃ dtm, tm = JDict dtm ∧
      ∀ cfg, dtm !! "config" = Some cfg → ∃ dcfg, cfg = JDict dcfg.

End Tree.

(** ** Reference semantics *)

Module Store.

Import Tree.

Abbreviation loc := nat.

(** A value is atomic or a reference to a container in the store. *)
Inductive val : Type :=
| VNone
| VBool (b : bool)
| VInt (z : Z)
| VFloat (f : spec_float)
| VStr (s : string)
| VRef (l : loc).

Inductive obj : Type :=
| ODict (d : gmap string val)
| OList (xs : list val).

(** The store: the object at location [l] is the [l]-th element; a new
    object goes to the end, objects are never removed. *)
Abbreviation store := (list obj).

(** Computations that read and write the store and may raise.  The store is
    returned in both cases: what was written before an exception stays. *)
Definition M (A : Type) : Type := store -> result A * store.

#[global] Instance M_ret : MRet M := fun _ a σ => (Ok a, σ).
#[global] Instance M_bind : MBind M := fun _ _ f m σ =>
  match m σ with
  | (Ok a, σ') => f a σ'
  | (Raise e, σ') => (Raise e, σ')
  end.

Definition raise {A} (e : exn) : M A := fun σ => (Raise e, σ).

Definition alloc (o : obj) : M val := fun σ => (Ok (VRef (length σ)), (σ ++ [o])%list).

Definition load (l : loc) : M obj := fun σ =>
  match σ !! l with
  | Some o => (Ok o, σ)
  | None => (Raise SystemError, σ)
  end.

Definition write (l : loc) (o : obj) : M unit := fun σ => (Ok tt, <[l:=o]> σ).

(** A loop over a list: [for x in xs: body(x)]. *)
Fixpoint for_each {X} (xs : list X) (body : X -> M unit) : M unit :=
  match xs with
  | [] => mret tt
  | x :: xs' => _ ← body x; for_each xs' body
  end.

Definition py_truthy (v : val) : M bool :=
  match v with
  | VNone => mret false
  | VBool b => mret b
  | VInt z => mret (negb (z =? 0)%Z)
  | VFloat (S754_zero _) => mret false
  | VFloat _ => mret true
  | VStr s => mret (negb (String.eqb s ""))
  | VRef l =>
      o ← load l;
      match o with
      | ODict d => mret (negb (bool_decide (d = ∅)))
      | OList xs => mret (negb (bool_decide (xs = [])))
      end
  end.

Definition py_contains (k : string) (v : val) : M bool :=
  match v with
  | VRef l =>
      o ← load l;
      match o with
      | ODict d => mret (bool_decide (is_Some (d !! k)))
      | OList xs =>
          mret (existsb (fun x => match x with VStr s => String.eqb s k | _ => false end) xs)
      end
  | VStr s => mret (is_substring k s)
  | _ => raise TypeError
  end.

Definition py_get (v : val) (k : string) (dflt : val) : M val :=
  match v with
  | VRef l =>
      o ← load l;
      match o with
      | ODict d => mret (default dflt (d !! k))
      | OList _ => raise AttributeError
      end
  | _ => raise AttributeError
  end.

(** [v.get(k, {})]: the method is looked up first, then the argument [{}] is
    evaluated, which creates a dict. *)
Definition py_get_or_empty (v : val) (k : string) : M val :=
  match v with
  | VRef l =>
      o ← load l;
      match o with
      | ODict d => empty ← alloc (ODict ∅); mret (default empty (d !! k))
      | OList _ => raise AttributeError
      end
  | _ => raise AttributeError
  end.

Definition py_getitem (v : val) (k : string) : M val :=
  match v with
  | VRef l =>
      o ← load l;
      match o with
      | ODict d =>
          match d !! k with
          | Some x => mret x
          | None => raise KeyError
          end
      | OList _ => raise TypeError
      end
  | _ => raise TypeError
  end.

(** [v[k] = x]: the dict [v] refers to is updated in place. *)
Definition py_setitem (v : val) (k : string) (x : val) : M unit :=
  match v with
  | VRef l =>
      o ← load l;
      match o with
      | ODict d => write l (ODict (<[k:=x]> d))
      | OList _ => raise TypeError
      end
  | _ => raise TypeError
  end.

(** [v.append(x)] on a list. *)
Definition py_append (v : val) (x : val) : M unit :=
  match v with
  | VRef l =>
      o ← load l;
      match o with
      | OList xs => write l (OList (xs ++ [x])%list)
      | ODict _ => raise AttributeError
      end
  | _ => raise AttributeError
  end.

(** [list(v.items())] *)
Definition py_items (v : val) : M (list (string * val)) :=
  match v with
  | VRef l =>
      o ← load l;
      match o with
      | ODict d => mret (map_to_list d)
      | OList _ => raise AttributeError
      end
  | _ => raise AttributeError
  end.

(** [copy.deepcopy(v)] as [copy._deepcopy_dict] and [copy._deepcopy_list] do
    it: the new container is created empty and filled with the copies of the
    items.  [fuel] is the interpreter's recursion limit.  The memo of the
    library, which keeps sharing and cycles, is left out: the operands here
    are dumps, which are trees. *)
Fixpoint deepcopy (fuel : nat) (v : val) : M val :=
  match v with
  | VRef l =>
      match fuel with
      | 0 => raise RecursionError
      | S fuel' =>
          o ← load l;
          match o with
          | ODict d =>
              y ← alloc (ODict ∅);
              _ ← for_each (map_to_list d)
                    (fun kx => x' ← deepcopy fuel' kx.2; py_setitem y kx.1 x');
              mret y
          | OList xs =>
              y ← alloc (OList []);
              _ ← for_each xs (fun x => x' ← deepcopy fuel' x; py_append y x');
              mret y
          end
      end
  | _ => mret v
  end.

(** Lines 80-94. *)
Definition merged_graph_config (fuel : nat)
    (existing_graph_config default_graph_config : val) : M val :=
  merged ← deepcopy fuel existing_graph_config;
  items ← py_items default_graph_config;
  _ ← for_each items
        (fun kv => if decide (kv.1 ∈ preserve_graph_fields) then mret tt
                   else py_setitem merged kv.1 kv.2);
  default_multi ← py_get default_graph_config "use_multi_db" (VBool true);
  not_multi ← py_truthy default_multi;
  if negb not_multi then
    merged_multi ← py_get merged "use_multi_db" (VBool true);
    is_multi ← py_truthy merged_multi;
    if is_multi : bool then
      _ ← py_setitem merged "use_multi_db" (VBool false);
      db_name ← py_get merged "db_name" VNone;
      _ ← py_setitem merged "user_name" db_name;
      default_db_name ← py_get default_graph_config "db_name" VNone;
      _ ← py_setitem merged "db_name" default_db_name;
      mret merged
    else mret merged
  else mret merged.

(** Lines 63-99; [VNone] when no graph section is carried over. *)
Definition preserved_graph_db (fuel : nat) (existing_dict default_dict : val)
  : M val :=
  in_existing ← py_contains "text_mem" existing_dict;
  in_both ← (if in_existing : bool then py_contains "text_mem" default_dict
             else mret false);
  if in_both : bool then
    existing_text_mem ← py_getitem existing_dict "text_mem";
    existing_text_config ← py_get_or_empty existing_text_mem "config";
    default_text_mem ← py_getitem default_dict "text_mem";
    default_text_config ← py_get_or_empty default_text_mem "config";
    g_existing ← py_contains "graph_db" existing_text_config;
    g_both ← (if g_existing : bool then py_contains "graph_db" default_text_config
              else mret false);
    if g_both : bool then
      existing_graph_db ← py_getitem existing_text_config "graph_db";
      existing_graph_config ← py_getitem existing_graph_db "config";
      default_graph_db ← py_getitem default_text_config "graph_db";
      default_graph_config ← py_getitem default_graph_db "config";
      merged ← merged_graph_config fuel existing_graph_config default_graph_config;
      existing_graph_db' ← py_getitem existing_text_config "graph_db";
      backend ← py_getitem existing_graph_db' "backend";
      alloc (ODict {[ "backend" := backend; "config" := merged ]})
    else mret VNone
  else mret VNone.

(** Lines 105-108. *)
Definition restore_fields (existing_dict merged_dict : val) : M unit :=
  for_each (elements preserve_fields)
    (fun field =>
       present ← py_contains field existing_dict;
       if present : bool then
         v ← py_getitem existing_dict field;
         py_setitem merged_dict field v
       else mret tt).

(** Lines 59-113. *)
Definition merged_dict (fuel : nat) (existing_dict default_dict : val) : M val :=
  preserved ← preserved_graph_db fuel existing_dict default_dict;
  merged ← deepcopy fuel default_dict;
  _ ← restore_fields existing_dict merged;
  nonempty ← py_truthy preserved;
  has_text ← (if nonempty : bool then py_contains "text_mem" merged else mret false);
  _ ← (if has_text : bool then
         text_mem ← py_getitem merged "text_mem";
         config ← py_getitem text_mem "config";
         py_setitem config "graph_db" preserved
       else mret tt);
  mret merged.

(** Lines 34-121.  The two pydantic conversions are library calls and stay
    parameters: computations on the store that return the dump, respectively
    the validated record (or raise). *)
Section Config.
Variable model_dump : val -> M val.
Variable model_validate : val -> M val.
Variable fuel : nat.

Definition merge_config_with_default (existing_config default_config : val)
  : M val :=
  existing_dict ← model_dump existing_config;
  default_dict ← model_dump default_config;
  merged ← merged_dict fuel existing_dict default_dict;
  model_validate merged.
End Config.

(** The tree a value stands for in a store: what [==] compares.  [None] when
    the value is nested deeper than [fuel] or refers outside the store. *)
Fixpoint snapshot (fuel : nat) (σ : store) (v : val) : option json :=
  match v with
  | VNone => Some JNone
  | VBool b => Some (JBool b)
  | VInt z => Some (JInt z)
  | VFloat f => Some (JFloat f)
  | VStr s => Some (JStr s)
  | VRef l =>
      match fuel with
      | 0 => None
      | S fuel' =>
          match σ !! l with
          | Some (ODict d) =>
              kts ← mapM (fun kx => t ← snapshot fuel' σ kx.2; Some (kx.1, t))
                         (map_to_list d);
              Some (JDict (list_to_map kts))
          | Some (OList xs) =>
              ts ← mapM (snapshot fuel' σ) xs;
              Some (JList ts)
          | None => None
          end
      end
  end.

(** ** Vocabulary of the frame proof *)

(** [wp m σ Q]: running [m] in [σ] ends, with a value or an exception, in a
    result and a store that satisfy [Q]. *)
Definition wp {A} (m : M A) (σ : store) (Q : result A → store → Prop) : Prop :=
  Q (m σ).1 (m σ).2.

(** Operations that only read. *)
Definition reads {A} (m : M A) : Prop := ∀ σ, (m σ).2 = σ.

(** [v] is atomic or refers to an object at or above [n]. *)
Definition fresh (n : nat) (v : val) : Prop :=
  match v with
  | VRef l => (n ≤ l)%nat
  | _ => True
  end.

Definition obj_fresh (n : nat) (o : obj) : Prop :=
  match o with
  | ODict d => map_Forall (fun _ x => fresh n x) d
  | OList xs => Forall (fresh n) xs
  end.

(** From [a] on, every object refers only to objects created after it. *)
Definition forward_from (a : nat) (σ : store) : Prop :=
  ∀ l o, (a ≤ l)%nat → σ !! l = Some o → obj_fresh (S l) o.

(** What [deepcopy] returns for [v] when run in [σ] and ending in [σ']. *)
Definition copy_root (v v' : val) (σ σ' : store) : Prop :=
  match v with
  | VRef _ => v' = VRef (length σ) ∧ (length σ < length σ')%nat
  | _ => v' = v
  end.

(** The invariant of the loops of [deepcopy] started in [σ]: [σ] is kept,
    the new container is in the store, and every new object refers only to
    objects created after it. *)
Definition copying (σ s : store) : Prop :=
  σ `prefix_of` s ∧ (length σ < length s)%nat ∧ forward_from (length σ) s.

(** [m] keeps [σ0] as a prefix of the store, and what it returns satisfies
    [P]. *)
Definition keeps (σ0 : store) {A} (m : M A) (P : A → Prop) : Prop :=
  ∀ σ, σ0 `prefix_of` σ →
    wp m σ (fun r σ' => σ0 `prefix_of` σ' ∧ ∀ a, r = Ok a → P a).

(** The invariant of the loop of lines 105-108, run on the copy [s2] of the
    default whose root is at [a]: only the root is written, and not at
    [text_mem]. *)
Definition restoring (σ0 : store) (a : nat) (s2 s : store) : Prop :=
  σ0 `prefix_of` s
  ∧ (∀ l, l ≠ a → s !! l = s2 !! l)
  ∧ (∀ dc, s !! a = Some (ODict dc) →
       ∃ d2, s2 !! a = Some (ODict d2) ∧ dc !! "text_mem" = d2 !! "text_mem").

End Store.

(** ** Sample configurations *)

Module Samples.

Import Tree.

(** A cube configuration whose graph section has backend [b] and
    configuration [g]. *)
Definition cube (user cube_id b : string) (g : json) : dict :=
  {[ "user_id" := JStr user;
     "cube_id" := JStr cube_id;
     "model_schema" := JStr "NOT_SET";
     "config_filename" := JStr "config.json";
     "act_mem" := JDict {[ "backend" := JStr "uninitialized" ]};
     "text_mem" := JDict {[
        "backend" := JStr "tree_text";
        "config" := JDict {[
           "extractor_llm" := JDict {[ "backend" := JStr "openai";
                                       "config" := JDict {[ "temperature" := JInt 0 ]} ]};
           "graph_db" := JDict {[ "backend" := JStr b; "config" := g ]} ]} ]} ]}.

(** A cube configuration with a text memory without graph section. *)
Definition plain_cube (user cube_id : string) (temperature : Z) : dict :=
  {[ "user_id" := JStr user;
     "cube_id" := JStr cube_id;
     "text_mem" := JDict {[
        "backend" := JStr "naive_text";
        "config" := JDict {[
           "extractor_llm" := JDict {[ "backend" := JStr "openai";
                                       "config" := JDict {[ "temperature" := JInt temperature ]} ]} ]} ]} ]}.

(** The graph configurations of the multi-database downgrade. *)
Definition multi_A : dict :=
  {[ "use_multi_db" := JBool true; "db_name" := JStr "A"; "user_name" := JStr "old" ]}.
Definition single_B : dict :=
  {[ "use_multi_db" := JBool false; "db_name" := JStr "B" ]}.

Definition single_A : dict :=
  {[ "use_multi_db" := JBool false; "db_name" := JStr "A"; "user_name" := JStr "u" ]}.

Definition multi_extra : dict :=
  {[ "use_multi_db" := JBool true; "user_name" := JStr "u"; "auto_create" := JBool true;
     "db_name" := JStr "A"; "embedding_dimension" := JInt 768 ]}.
Definition multi_B : dict :=
  {[ "use_multi_db" := JBool true; "user_name" := JStr "default"; "db_name" := JStr "B" ]}.

Definition unset_B : dict :=
  {[ "db_name" := JStr "B"; "user_name" := JStr "default" ]}.

(** A default graph configuration without database name, the tree the
    downgrade makes of it, and a validator in the way of the schema: a
    database name that is present must be a string. *)
Definition single_unnamed : dict := {[ "use_multi_db" := JBool false ]}.

Definition require_db_name (m : dict) : option dict :=
  match graph_config m ≫= lookup_path ["db_name"] with
  | Some (JStr _) | None => Some m
  | Some _ => None
  end.

Definition downgraded_unnamed : dict :=
  {[ "use_multi_db" := JBool false; "user_name" := JStr "A"; "db_name" := JNone ]}.

(** A store with two cube configurations, at 0 and at 5. *)
Definition sample_store : Store.store :=
  [ Store.ODict {[ "user_id" := Store.VStr "alice"; "cube_id" := Store.VStr "cube_a";
                   "text_mem" := Store.VRef 1 ]};
    Store.ODict {[ "backend" := Store.VStr "tree_text"; "config" := Store.VRef 2 ]};
    Store.ODict {[ "graph_db" := Store.VRef 3 ]};
    Store.ODict {[ "backend" := Store.VStr "neo4j"; "config" := Store.VRef 4 ]};
    Store.ODict {[ "use_multi_db" := Store.VBool true; "db_name" := Store.VStr "A";
                   "user_name" := Store.VStr "old" ]};
    Store.ODict {[ "user_id" := Store.VStr "default_user";
                   "cube_id" := Store.VStr "default_cube"; "text_mem" := Store.VRef 6 ]};
    Store.ODict {[ "backend" := Store.VStr "tree_text"; "config" := Store.VRef 7 ]};
    Store.ODict {[ "graph_db" := Store.VRef 8 ]};
    Store.ODict {[ "backend" := Store.VStr "nebular"; "config" := Store.VRef 9 ]};
    Store.ODict {[ "use_multi_db" := Store.VBool false; "db_name" := Store.VStr "B" ]} ]%list.

End Samples.

Module MoreSamples.
Import Tree.

(** A default graph configuration whose [use_multi_db] is present but null,
    an existing one without the key, and a graph section without backend. *)
Definition null_flag_B : dict :=
  {[ "use_multi_db" := JNone; "db_name" := JStr "B" ]}.
Definition unflagged_A : dict :=
  {[ "db_name" := JStr "A"; "user_name" := JStr "old" ]}.
Definition untagged_cube (g : json) : dict :=
  {[ "user_id" := JStr "alice";
     "text_mem" := JDict {[ "config" := JDict {[ "graph_db" := JDict {[ "config" := g ]} ]} ]} ]}.
End MoreSamples.

(** The graph section as the schema gives it: a dict with a backend tag and
    a dict [config]. *)
Module Shape.
Import Tree.

End Shape.

(** ** Value semantics: lemmas and theorems *)

Module TreeFacts.

Import Tree Samples.

Lemma result_bind_Ok {A B} (f : A → result B) (a : A) : Ok a ≫= f = f a.
Proof. reflexivity. Qed.

Lemma result_bind_inv {A B} (f : A → result B) (m : result A) (b : B) :
  m ≫= f = Ok b → ∃ a, m = Ok a ∧ f a = Ok b.
Proof. destruct m as [a|e]; [eauto | discriminate]. Qed.

Lemma overwrite_loop_dict (eg dg : dict) :
  overwrite_loop (JDict eg) dg = Ok (JDict (overwritten eg dg)).
Proof.
  unfold overwrite_loop, overwritten.
  apply (map_fold_weak_ind
           (fun r m => r = Ok (JDict (filter (fun kv => kv.1 ∉ preserve_graph_fields) m ∪ eg)))).
  - by rewrite map_filter_empty, (left_id_L ∅ (∪)).
  - intros key value m r Hfresh ->. unfold overwrite_step. simpl.
    destruct (decide (key ∈ preserve_graph_fields)) as [Hin|Hout]; simpl.
    + by rewrite map_filter_insert_not by (intros ?; simpl; tauto).
    + rewrite map_filter_insert_True by done. by rewrite insert_union_l.
Qed.

Lemma overwritten_lookup (eg dg : dict) (k : string) :
  overwritten eg dg !! k =
    if decide (k ∈ preserve_graph_fields) then eg !! k
    else match dg !! k with Some v => Some v | None => eg !! k end.
Proof.
  unfold overwritten. rewrite lookup_union.
  destruct (decide (k ∈ preserve_graph_fields)) as [Hin|Hout].
  - rewrite map_lookup_filter_None_2; [by rewrite (left_id_L None union)|].
    right. intros x _. simpl. tauto.
  - destruct (dg !! k) as [v|] eqn:Hk.
    + erewrite map_lookup_filter_Some_2; [|exact Hk|done].
      by destruct (eg !! k).
    + rewrite map_lookup_filter_None_2 by (by left).
      by rewrite (left_id_L None union).
Qed.

Lemma restore_fields_lookup (e d : dict) (f : string) :
  restore_fields e d !! f =
    if decide (f ∈ preserve_fields)
    then match e !! f with Some v => Some v | None => d !! f end
    else d !! f.
Proof.
  unfold restore_fields. generalize preserve_fields. intros fields.
  set (P := fun (acc : dict) (X : gset string) =>
              acc !! f = if decide (f ∈ X)
                         then match e !! f with Some v => Some v | None => d !! f end
                         else d !! f).
  apply (set_fold_ind_L P); unfold P; clear P.
  - by rewrite decide_False by apply not_elem_of_empty.
  - intros x X acc Hx IH.
    destruct (decide (f = x)) as [->|Hne].
    + rewrite decide_True by (by apply elem_of_union_l, elem_of_singleton).
      destruct (e !! x) as [v|] eqn:He.
      * by rewrite lookup_insert_eq.
      * rewrite IH. by rewrite decide_False.
    + assert ((match e !! x with Some v => <[x:=v]> acc | None => acc end) !! f
              = acc !! f) as ->.
      { destruct (e !! x); [by rewrite lookup_insert_ne|done]. }
      rewrite IH. destruct (decide (f ∈ X)) as [HX|HX].
      * by rewrite decide_True by (by apply elem_of_union_r).
      * by rewrite decide_False
          by (rewrite elem_of_union, elem_of_singleton; tauto).
Qed.

Lemma py_get_inv (v : json) (k : string) (dflt x : json) :
  py_get v k dflt = Ok x → ∃ m, v = JDict m ∧ x = default dflt (m !! k).
Proof. destruct v; simpl; intros; simplify_eq; eauto. Qed.

Lemma py_getitem_inv (v : json) (k : string) (x : json) :
  py_getitem v k = Ok x → ∃ m, v = JDict m ∧ m !! k = Some x.
Proof.
  destruct v as [| | | | | |m]; simpl; try discriminate.
  destruct (m !! k) eqn:?; intros; simplify_eq; eauto.
Qed.

Lemma py_getitem_dict (m : dict) (k : string) (x : json) :
  m !! k = Some x → py_getitem (JDict m) k = Ok x.
Proof. simpl. by intros ->. Qed.

Lemma py_contains_dict_true (v : json) (k : string) (x : json) :
  py_contains k v = Ok true → py_getitem v k = Ok x →
  ∃ m, v = JDict m ∧ m !! k = Some x.
Proof. intros _. apply py_getitem_inv. Qed.

Lemma graph_db_path_inv (c : dict) (g : json) :
  lookup_path graph_db_path (JDict c) = Some g ↔
  ∃ tm cfg, c !! "text_mem" = Some (JDict tm) ∧ tm !! "config" = Some (JDict cfg)
            ∧ cfg !! "graph_db" = Some g.
Proof.
  simpl. split.
  - destruct (c !! "text_mem") as [[| | | | | |tm]|]; simpl; try discriminate.
    destruct (tm !! "config") as [[| | | | | |cfg]|] eqn:Hcfg; simpl; try discriminate.
    destruct (cfg !! "graph_db") as [x|] eqn:Hg; simpl; try discriminate.
    intros [= <-]. eauto.
  - intros (tm & cfg & -> & Htm & Hcfg). simpl. rewrite Htm. simpl. by rewrite Hcfg.
Qed.

Lemma lookup_path_app (p q : list string) (v : json) :
  lookup_path (p ++ q) v = lookup_path p v ≫= lookup_path q.
Proof.
  revert v. induction p as [|k p IH]; intros v; simpl; [done|].
  destruct v as [| | | | | |m]; try done.
  destruct (m !! k); simpl; [apply IH|done].
Qed.

(** What lines 68-99 compute when both trees have the graph section. *)
Lemma preserved_graph_db_both (e d : dict) (egdb dgdb : json) :
  lookup_path graph_db_path (JDict e) = Some egdb →
  lookup_path graph_db_path (JDict d) = Some dgdb →
  preserved_graph_db e d =
    (egc ← py_getitem egdb "config";
     dgc ← py_getitem dgdb "config";
     merged ← merged_graph_config egc dgc;
     backend ← py_getitem egdb "backend";
     mret (Some (JDict {[ "backend" := backend; "config" := merged ]}))).
Proof.
  intros (etm & ecfg & He & Hetm & Hecfg)%graph_db_path_inv
         (dtm & dcfg & Hd & Hdtm & Hdcfg)%graph_db_path_inv.
  unfold preserved_graph_db. rewrite He, Hd. simpl.
  rewrite Hetm, Hdtm. simpl. rewrite Hecfg, Hdcfg. simpl.
  reflexivity.
Qed.

(** A graph section is only carried over when both trees have one. *)
Lemma preserved_graph_db_Some (e d : dict) (g : json) :
  preserved_graph_db e d = Ok (Some g) →
  ∃ egdb dgdb, lookup_path graph_db_path (JDict e) = Some egdb
             ∧ lookup_path graph_db_path (JDict d) = Some dgdb.
Proof.
  unfold preserved_graph_db.
  destruct (e !! "text_mem") as [etm|] eqn:He; [|discriminate].
  destruct (d !! "text_mem") as [dtm|] eqn:Hd; [|discriminate].
  intros H.
  apply result_bind_inv in H as (ecfg & (tm & -> & ->)%py_get_inv & H).
  apply result_bind_inv in H as (dcfg & (tm' & -> & ->)%py_get_inv & H).
  apply result_bind_inv in H as ([|] & Hin1 & H); simpl in H; [|discriminate].
  apply result_bind_inv in H as ([|] & Hin2 & H); simpl in H; [|discriminate].
  apply result_bind_inv in H as (egdb & (c & Hc & Hg)%py_getitem_inv & H).
  apply result_bind_inv in H as (egc & _ & H).
  apply result_bind_inv in H as (dgdb & (c' & Hc' & Hg')%py_getitem_inv & H).
  exists egdb, dgdb. split; apply graph_db_path_inv.
  - exists tm, c. split_and!; try done.
    destruct (tm !! "config") as [x|]; simpl in Hc.
    + by subst.
    + simplify_eq.
  - exists tm', c'. split_and!; try done.
    destruct (tm' !! "config") as [x|]; simpl in Hc'.
    + by subst.
    + simplify_eq.
Qed.

Lemma restore_fields_text_mem (e d : dict) :
  restore_fields e d !! "text_mem" = d !! "text_mem".
Proof.
  rewrite restore_fields_lookup.
  by rewrite decide_False by (apply (bool_decide_unpack _); vm_compute; exact I).
Qed.



Lemma merged_graph_config_dict (eg dg : dict) :
  merged_graph_config (JDict eg) (JDict dg) =
    Ok (JDict
      (if negb (truthy (default (JBool true) (dg !! "use_multi_db")))
          && truthy (default (JBool true) (eg !! "use_multi_db"))
       then <["db_name" := default JNone (dg !! "db_name")]>
              (<["user_name" := default JNone (overwritten eg dg !! "db_name")]>
                 (<["use_multi_db" := JBool false]> (overwritten eg dg)))
       else overwritten eg dg)).
Proof.
  unfold merged_graph_config.
  cbn [py_items py_get]. rewrite ?result_bind_Ok, overwrite_loop_dict, !result_bind_Ok.
  cbn [py_get py_setitem]. rewrite ?result_bind_Ok.
  assert (overwritten eg dg !! "use_multi_db" = eg !! "use_multi_db") as ->.
  { rewrite overwritten_lookup.
    by rewrite decide_True by (apply (bool_decide_unpack _); vm_compute; exact I). }
  destruct (truthy (default (JBool true) (dg !! "use_multi_db"))); cbn [negb andb]; [done|].
  destruct (truthy (default (JBool true) (eg !! "use_multi_db"))); [|done].
  rewrite ?result_bind_Ok. cbn [py_get py_setitem]. rewrite ?result_bind_Ok.
  cbn [py_get py_setitem].
  by rewrite lookup_insert_ne by done.
Qed.

Lemma restore_graph_db_inv (r : dict) (g : json) (m : dict) :
  restore_graph_db r g = Ok m →
  ∃ tm cfg, r !! "text_mem" = Some (JDict tm) ∧ tm !! "config" = Some (JDict cfg)
    ∧ m = <["text_mem" := JDict (<["config" := JDict (<["graph_db" := g]> cfg)]> tm)]> r.
Proof.
  unfold restore_graph_db. intros H.
  apply result_bind_inv in H as (tm & (r' & [= <-] & Hr)%py_getitem_inv & H).
  apply result_bind_inv in H as (cfg & (tm' & -> & Htm)%py_getitem_inv & H).
  destruct cfg as [| | | | | |cfg]; try discriminate H.
  cbn [py_setitem] in H. rewrite !result_bind_Ok in H.
  injection H as <-. eauto.
Qed.

Lemma restore_graph_db_dict (r tm cfg : dict) (g : json) :
  r !! "text_mem" = Some (JDict tm) → tm !! "config" = Some (JDict cfg) →
  restore_graph_db r g =
    Ok (<["text_mem" := JDict (<["config" := JDict (<["graph_db" := g]> cfg)]> tm)]> r).
Proof.
  intros Hr Htm. unfold restore_graph_db.
  rewrite (py_getitem_dict _ _ _ Hr), result_bind_Ok.
  rewrite (py_getitem_dict _ _ _ Htm), result_bind_Ok.
  reflexivity.
Qed.

Lemma truthy_preserved (b mg : json) :
  truthy (JDict {[ "backend" := b; "config" := mg ]}) = true.
Proof.
  unfold truthy. rewrite bool_decide_eq_false_2; [done|]. apply insert_non_empty.
Qed.

Lemma Ok_inj {A} (a b : A) : Ok a = Ok b → a = b.
Proof. by intros [= ->]. Qed.

Lemma merged_dict_Some (e d : dict) (g : json) :
  preserved_graph_db e d = Ok (Some g) →
  ∃ tm cfg, d !! "text_mem" = Some (JDict tm) ∧ tm !! "config" = Some (JDict cfg)
    ∧ merged_dict e d =
        Ok (<["text_mem" := JDict (<["config" := JDict (<["graph_db" := g]> cfg)]> tm)]>
              (restore_fields e d)).
Proof.
  intros Hp. destruct (preserved_graph_db_Some _ _ _ Hp) as (egdb & dgdb & He & Hd).
  pose proof Hp as Hp'. rewrite (preserved_graph_db_both _ _ _ _ He Hd) in Hp'.
  apply result_bind_inv in Hp' as (egc & _ & Hp').
  apply result_bind_inv in Hp' as (dgc & _ & Hp').
  apply result_bind_inv in Hp' as (mg & _ & Hp').
  apply result_bind_inv in Hp' as (b & _ & Hp').
  apply Ok_inj in Hp'. apply (inj Some) in Hp' as <-.
  apply graph_db_path_inv in Hd as (tm & cfg & Hd & Htm & _).
  exists tm, cfg. split_and!; [done..|].
  unfold merged_dict. rewrite Hp, result_bind_Ok.
  rewrite truthy_preserved, restore_fields_text_mem, Hd.
  rewrite bool_decide_eq_true_2 by eauto. cbn [andb].
  apply restore_graph_db_dict; [by rewrite restore_fields_text_mem|done].
Qed.

Lemma merged_dict_None (e d : dict) :
  preserved_graph_db e d = Ok None → merged_dict e d = Ok (restore_fields e d).
Proof. intros Hp. unfold merged_dict. by rewrite Hp. Qed.

Lemma merged_dict_inv (e d m : dict) :
  merged_dict e d = Ok m →
  (preserved_graph_db e d = Ok None ∧ m = restore_fields e d)
  ∨ (∃ g tm cfg, preserved_graph_db e d = Ok (Some g)
       ∧ d !! "text_mem" = Some (JDict tm) ∧ tm !! "config" = Some (JDict cfg)
       ∧ m = <["text_mem" := JDict (<["config" := JDict (<["graph_db" := g]> cfg)]> tm)]>
               (restore_fields e d)).
Proof.
  intros H. destruct (preserved_graph_db e d) as [[g|]|err] eqn:Hp.
  - right. destruct (merged_dict_Some _ _ _ Hp) as (tm & cfg & Hd & Htm & Hm).
    rewrite Hm in H. apply Ok_inj in H as <-. by exists g, tm, cfg.
  - left. rewrite (merged_dict_None _ _ Hp) in H. by apply Ok_inj in H as <-.
  - unfold merged_dict in H. by rewrite Hp in H.
Qed.

Ltac by_computation := apply (bool_decide_unpack _); vm_compute; exact I.

Lemma graph_config_inv (c : dict) (x : json) :
  graph_config c = Some x ↔
  ∃ gdb, lookup_path graph_db_path (JDict c) = Some (JDict gdb) ∧ gdb !! "config" = Some x.
Proof.
  unfold graph_config. rewrite lookup_path_app. split.
  - destruct (lookup_path graph_db_path (JDict c)) as [[| | | | | |gdb]|]; try discriminate.
    cbn [mbind option_bind lookup_path].
    destruct (gdb !! "config") eqn:Hg; [|discriminate].
    intros [= <-]. eauto.
  - intros (gdb & -> & Hg). cbn [mbind option_bind lookup_path]. by rewrite Hg.
Qed.

Lemma graph_backend_inv (c : dict) (x : json) :
  graph_backend c = Some x ↔
  ∃ gdb, lookup_path graph_db_path (JDict c) = Some (JDict gdb) ∧ gdb !! "backend" = Some x.
Proof.
  unfold graph_backend. rewrite lookup_path_app. split.
  - destruct (lookup_path graph_db_path (JDict c)) as [[| | | | | |gdb]|]; try discriminate.
    cbn [mbind option_bind lookup_path].
    destruct (gdb !! "backend") eqn:Hg; [|discriminate].
    intros [= <-]. eauto.
  - intros (gdb & -> & Hg). cbn [mbind option_bind lookup_path]. by rewrite Hg.
Qed.

Lemma lookup_path_installed (r tm cfg : dict) (g : json) :
  lookup_path graph_db_path
    (JDict (<["text_mem" := JDict (<["config" := JDict (<["graph_db" := g]> cfg)]> tm)]> r))
  = Some g.
Proof.
  apply graph_db_path_inv. eexists _, _. split_and!; apply lookup_insert_eq.
Qed.

(** With a graph section in both trees the merge returns, and the graph
    section of its result is the existing backend with the merged graph
    configuration. *)
Lemma merged_dict_graph (e d eg dg : dict) (b : json) :
  graph_config e = Some (JDict eg) → graph_backend e = Some b →
  graph_config d = Some (JDict dg) →
  ∃ m mg, merged_dict e d = Ok m
    ∧ merged_graph_config (JDict eg) (JDict dg) = Ok (JDict mg)
    ∧ graph_config m = Some (JDict mg) ∧ graph_backend m = Some b.
Proof.
  intros (egdb & He & Heg)%graph_config_inv (egdb' & He' & Hb)%graph_backend_inv
         (dgdb & Hd & Hdg)%graph_config_inv.
  rewrite He in He'. apply (inj Some) in He'. assert (egdb' = egdb) as -> by congruence.
  clear He'.
  pose proof (preserved_graph_db_both _ _ _ _ He Hd) as Hp.
  rewrite (py_getitem_dict _ _ _ Heg), result_bind_Ok in Hp.
  rewrite (py_getitem_dict _ _ _ Hdg), result_bind_Ok in Hp.
  rewrite merged_graph_config_dict in Hp |- *. rewrite result_bind_Ok in Hp.
  rewrite (py_getitem_dict _ _ _ Hb), result_bind_Ok in Hp.
  destruct (merged_dict_Some _ _ _ Hp) as (tm & cfg & _ & _ & Hm).
  eexists _, _. split; [exact Hm|]. split; [reflexivity|]. split.
  - apply graph_config_inv. eexists. split; [apply lookup_path_installed|].
    rewrite lookup_insert_ne by done. apply lookup_singleton_eq.
  - apply graph_backend_inv. eexists. split; [apply lookup_path_installed|].
    apply lookup_insert_eq.
Qed.

Lemma not_multi_true (dg : dict) :
  dg !! "use_multi_db" = Some (JBool true) ∨ dg !! "use_multi_db" = None →
  truthy (default (JBool true) (dg !! "use_multi_db")) = true.
Proof. by intros [-> | ->]. Qed.

Lemma JDict_inj (a b : dict) : JDict a = JDict b → a = b.
Proof. by intros [= ->]. Qed.

(** C2.  Identity preservation: once the graph section is settled (lines
    63-99 returned), the merge returns, and each of [user_id], [cube_id],
    [config_filename], [model_schema] has in the merged tree the value of the
    existing configuration when the existing configuration has the field,
    and the value of the default otherwise. *)
Theorem identity_fields_preserved (e d : dict) (p : option json) (f : string) :
  preserved_graph_db e d = Ok p → f ∈ preserve_fields →
  ∃ m, merged_dict e d = Ok m
    ∧ m !! f = match e !! f with Some v => Some v | None => d !! f end.
Proof.
  intros Hp Hf.
  assert (f ≠ "text_mem") as Hne.
  { intros ->. revert Hf. by_computation. }
  assert (restore_fields e d !! f = match e !! f with Some v => Some v | None => d !! f end)
    as Hr by (by rewrite restore_fields_lookup, decide_True).
  destruct p as [g|].
  - destruct (merged_dict_Some _ _ _ Hp) as (tm & cfg & _ & _ & Hm).
    eexists. split; [exact Hm|]. by rewrite lookup_insert_ne.
  - eexists. split; [by apply merged_dict_None|done].
Qed.

Lemma identity_fields_preserved_witness :
  ∃ m, merged_dict (cube "alice" "cube_a" "neo4j" (JDict multi_A))
                   (plain_cube "default_user" "default_cube" 1) = Ok m
    ∧ m !! "user_id" = Some (JStr "alice").
Proof.
  apply (identity_fields_preserved
           (cube "alice" "cube_a" "neo4j" (JDict multi_A))
           (plain_cube "default_user" "default_cube" 1) None "user_id").
  - vm_compute. reflexivity.
  - by_computation.
Defined.

(** C6.  Backend tag provenance: when both configurations have a graph
    section, the merge returns and the backend tag of the merged graph
    section is the one of the existing configuration, whatever the default's
    tag is. *)
Theorem backend_from_existing (e d eg dg : dict) (b : json) :
  graph_config e = Some (JDict eg) → graph_backend e = Some b →
  graph_config d = Some (JDict dg) →
  ∃ m, merged_dict e d = Ok m ∧ graph_backend m = Some b.
Proof.
  intros He Hb Hd.
  destruct (merged_dict_graph e d eg dg b He Hb Hd) as (m & mg & Hm & _ & _ & Hmb).
  by exists m.
Qed.

Lemma backend_from_existing_witness :
  ∃ m, merged_dict (cube "alice" "cube_a" "neo4j" (JDict multi_A))
                   (cube "default_user" "default_cube" "nebular" (JDict single_B)) = Ok m
    ∧ graph_backend m = Some (JStr "neo4j").
Proof.
  apply (backend_from_existing _ _ multi_A single_B); vm_compute; reflexivity.
Defined.

(** C3, amended.  Protected graph fields: when both configurations have a
    graph section and the default's [use_multi_db] is [true], the merged
    [auto_create], [user_name] and [use_multi_db] are the existing ones;
    every other field that the default's graph configuration has takes the
    default's value, and a field that only the existing graph configuration
    has keeps the existing value. *)
Theorem graph_protected_fields_preserved (e d eg dg : dict) (b : json) :
  graph_config e = Some (JDict eg) → graph_backend e = Some b →
  graph_config d = Some (JDict dg) →
  dg !! "use_multi_db" = Some (JBool true) →
  ∃ m mg, merged_dict e d = Ok m ∧ graph_config m = Some (JDict mg)
    ∧ (∀ k, k ∈ preserve_graph_fields → mg !! k = eg !! k)
    ∧ (∀ k v, k ∉ preserve_graph_fields → dg !! k = Some v → mg !! k = Some v)
    ∧ (∀ k, k ∉ preserve_graph_fields → dg !! k = None → mg !! k = eg !! k).
Proof.
  intros He Hb Hd Hmulti.
  destruct (merged_dict_graph e d eg dg b He Hb Hd) as (m & mg & Hm & Hmg & Hg & _).
  rewrite merged_graph_config_dict, not_multi_true in Hmg by auto.
  cbn [negb andb] in Hmg. apply Ok_inj, JDict_inj in Hmg. subst mg.
  exists m, (overwritten eg dg). split_and!; [done..| | |].
  - intros k Hk. by rewrite overwritten_lookup, decide_True.
  - intros k v Hk Hv. by rewrite overwritten_lookup, decide_False, Hv.
  - intros k Hk Hv. by rewrite overwritten_lookup, decide_False, Hv.
Qed.

Lemma graph_protected_fields_preserved_witness :
  ∃ m mg, merged_dict (cube "alice" "cube_a" "neo4j" (JDict multi_extra))
                      (cube "default_user" "default_cube" "neo4j" (JDict multi_B)) = Ok m
    ∧ graph_config m = Some (JDict mg)
    ∧ (∀ k, k ∈ preserve_graph_fields → mg !! k = multi_extra !! k)
    ∧ (∀ k v, k ∉ preserve_graph_fields → multi_B !! k = Some v → mg !! k = Some v)
    ∧ (∀ k, k ∉ preserve_graph_fields → multi_B !! k = None → mg !! k = multi_extra !! k).
Proof.
  apply (graph_protected_fields_preserved _ _ multi_extra multi_B (JStr "neo4j"));
    vm_compute; reflexivity.
Defined.

(** C3 as stated fails: a graph field outside the protected set that only
    the existing configuration has ([embedding_dimension]) stays in the
    merged graph configuration, where the default has no value for it. *)
Lemma graph_other_fields_counterexample :
  let e := cube "alice" "cube_a" "neo4j" (JDict multi_extra) in
  let d := cube "default_user" "default_cube" "neo4j" (JDict multi_B) in
  graph_config e = Some (JDict multi_extra)
  ∧ graph_config d = Some (JDict multi_B)
  ∧ multi_B !! "use_multi_db" = Some (JBool true)
  ∧ ("embedding_dimension" ∉ preserve_graph_fields)
  ∧ ∃ m mg, merged_dict e d = Ok m ∧ graph_config m = Some (JDict mg)
      ∧ mg !! "embedding_dimension" = Some (JInt 768)
      ∧ multi_B !! "embedding_dimension" = None
      ∧ (mg !! "embedding_dimension" ≠ multi_B !! "embedding_dimension").
Proof.
  intros e d. split_and!; [vm_compute; reflexivity..|by_computation|].
  destruct (merged_dict_graph e d multi_extra multi_B (JStr "neo4j"))
    as (m & mg & Hm & Hmg & Hg & _); [vm_compute; reflexivity..|].
  exists m, mg. split; [done|]. split; [done|].
  rewrite merged_graph_config_dict in Hmg.
  apply Ok_inj, JDict_inj in Hmg. rewrite <- Hmg. clear.
  split_and!; [vm_compute; reflexivity..|vm_compute; discriminate].
Qed.

(** C4, amended.  No-op branch: when both graph configurations have
    [use_multi_db = false], the derived-field rule rewrites nothing: the
    merged graph configuration is what the overwrite loop left, so
    [use_multi_db] and [user_name] are the existing ones and [db_name] is
    the default's when the default has one, the existing one otherwise. *)
Theorem single_db_no_rewrite (e d eg dg : dict) (b : json) :
  graph_config e = Some (JDict eg) → graph_backend e = Some b →
  graph_config d = Some (JDict dg) →
  eg !! "use_multi_db" = Some (JBool false) →
  dg !! "use_multi_db" = Some (JBool false) →
  ∃ m mg, merged_dict e d = Ok m ∧ graph_config m = Some (JDict mg)
    ∧ mg = overwritten eg dg
    ∧ mg !! "use_multi_db" = Some (JBool false)
    ∧ mg !! "user_name" = eg !! "user_name"
    ∧ mg !! "db_name" = match dg !! "db_name" with
                         | Some v => Some v
                         | None => eg !! "db_name"
                         end.
Proof.
  intros He Hb Hd Hes Hds.
  destruct (merged_dict_graph e d eg dg b He Hb Hd) as (m & mg & Hm & Hmg & Hg & _).
  rewrite merged_graph_config_dict, Hes, Hds in Hmg.
  cbn [default truthy negb andb] in Hmg. apply Ok_inj, JDict_inj in Hmg. subst mg.
  exists m, (overwritten eg dg). split_and!; [done..| | |].
  - rewrite overwritten_lookup, decide_True by by_computation. done.
  - by rewrite overwritten_lookup, decide_True by by_computation.
  - by rewrite overwritten_lookup, decide_False by by_computation.
Qed.

Lemma single_db_no_rewrite_witness :
  ∃ m mg, merged_dict (cube "alice" "cube_a" "neo4j" (JDict single_A))
                      (cube "default_user" "default_cube" "neo4j" (JDict single_B)) = Ok m
    ∧ graph_config m = Some (JDict mg)
    ∧ mg = overwritten single_A single_B
    ∧ mg !! "use_multi_db" = Some (JBool false)
    ∧ mg !! "user_name" = single_A !! "user_name"
    ∧ mg !! "db_name" = match single_B !! "db_name" with
                         | Some v => Some v
                         | None => single_A !! "db_name"
                         end.
Proof.
  apply (single_db_no_rewrite _ _ single_A single_B (JStr "neo4j"));
    vm_compute; reflexivity.
Defined.

(** C4 as stated fails: with [use_multi_db = false] on both sides the merged
    [db_name] is the default's ("B"), not the existing one ("A"): the
    overwrite loop has replaced it. *)
Lemma single_db_db_name_counterexample :
  let e := cube "alice" "cube_a" "neo4j" (JDict single_A) in
  let d := cube "default_user" "default_cube" "neo4j" (JDict single_B) in
  graph_config e = Some (JDict single_A)
  ∧ graph_config d = Some (JDict single_B)
  ∧ single_A !! "use_multi_db" = Some (JBool false)
  ∧ single_B !! "use_multi_db" = Some (JBool false)
  ∧ ∃ m mg, merged_dict e d = Ok m ∧ graph_config m = Some (JDict mg)
      ∧ mg !! "db_name" = Some (JStr "B")
      ∧ single_A !! "db_name" = Some (JStr "A")
      ∧ (mg !! "db_name" ≠ single_A !! "db_name").
Proof.
  intros e d. split_and!; [vm_compute; reflexivity..|].
  destruct (merged_dict_graph e d single_A single_B (JStr "neo4j"))
    as (m & mg & Hm & Hmg & Hg & _); [vm_compute; reflexivity..|].
  exists m, mg. split; [done|]. split; [done|].
  rewrite merged_graph_config_dict in Hmg.
  apply Ok_inj, JDict_inj in Hmg. rewrite <- Hmg. clear.
  split_and!; [vm_compute; reflexivity..|vm_compute; discriminate].
Qed.

(** C10.  An absent [use_multi_db] counts as true: when the default's graph
    configuration has no [use_multi_db] key, the derived-field rule does not
    fire: the merged graph configuration is what the overwrite loop left,
    and its [use_multi_db] and [user_name] are the existing ones. *)
Theorem absent_use_multi_db_is_true (e d eg dg : dict) (b : json) :
  graph_config e = Some (JDict eg) → graph_backend e = Some b →
  graph_config d = Some (JDict dg) →
  dg !! "use_multi_db" = None →
  ∃ m mg, merged_dict e d = Ok m ∧ graph_config m = Some (JDict mg)
    ∧ mg = overwritten eg dg
    ∧ mg !! "use_multi_db" = eg !! "use_multi_db"
    ∧ mg !! "user_name" = eg !! "user_name".
Proof.
  intros He Hb Hd Hnone.
  destruct (merged_dict_graph e d eg dg b He Hb Hd) as (m & mg & Hm & Hmg & Hg & _).
  rewrite merged_graph_config_dict, not_multi_true in Hmg by auto.
  cbn [negb andb] in Hmg. apply Ok_inj, JDict_inj in Hmg. subst mg.
  exists m, (overwritten eg dg). split_and!; [done..| |].
  - by rewrite overwritten_lookup, decide_True by by_computation.
  - by rewrite overwritten_lookup, decide_True by by_computation.
Qed.

Lemma absent_use_multi_db_is_true_witness :
  ∃ m mg, merged_dict (cube "alice" "cube_a" "neo4j" (JDict multi_A))
                      (cube "default_user" "default_cube" "neo4j" (JDict unset_B)) = Ok m
    ∧ graph_config m = Some (JDict mg)
    ∧ mg = overwritten multi_A unset_B
    ∧ mg !! "use_multi_db" = multi_A !! "use_multi_db"
    ∧ mg !! "user_name" = multi_A !! "user_name".
Proof.
  apply (absent_use_multi_db_is_true _ _ multi_A unset_B (JStr "neo4j"));
    vm_compute; reflexivity.
Defined.

(** C1, the code at the input of the specification's own example: existing
    graph configuration [{use_multi_db: true, db_name: "A", user_name:
    "old"}], default [{use_multi_db: false, db_name: "B"}].  The overwrite
    loop has already replaced [db_name] when the derived-field rule reads it,
    so the merged [user_name] is "B", not the existing database name "A". *)
Theorem downgrade_carry_over_reads_overwritten_db_name :
  let e := cube "alice" "cube_a" "neo4j" (JDict multi_A) in
  let d := cube "default_user" "default_cube" "neo4j" (JDict single_B) in
  graph_config e = Some (JDict multi_A)
  ∧ graph_config d = Some (JDict single_B)
  ∧ ∃ m, merged_dict e d = Ok m
      ∧ graph_config m =
          Some (JDict {[ "use_multi_db" := JBool false;
                         "user_name" := JStr "B";
                         "db_name" := JStr "B" ]}).
Proof.
  intros e d. split_and!; [vm_compute; reflexivity..|].
  destruct (merged_dict_graph e d multi_A single_B (JStr "neo4j"))
    as (m & mg & Hm & Hmg & Hg & _); [vm_compute; reflexivity..|].
  exists m. split; [done|]. rewrite Hg.
  rewrite merged_graph_config_dict in Hmg.
  apply Ok_inj, JDict_inj in Hmg. rewrite <- Hmg. clear.
  vm_compute. reflexivity.
Qed.

Lemma lookup_path_cons (k : string) (p : list string) (m : dict) :
  lookup_path (k :: p) (JDict m) = m !! k ≫= lookup_path p.
Proof. reflexivity. Qed.

(** C5.  Default propagation: in the tree the merge returns, every field
    reached by a path of dict keys that does not start at an identity field
    and neither leads into the graph section nor is one of the two sections
    that contain it ([text_mem], [text_mem.config]) has the default's
    value; absent in the default means absent in the result. *)
Theorem default_propagation (e d m : dict) (k : string) (p : list string) :
  merged_dict e d = Ok m →
  k ∉ preserve_fields →
  ¬ (k :: p) `prefix_of` graph_db_path →
  ¬ graph_db_path `prefix_of` (k :: p) →
  lookup_path (k :: p) (JDict m) = lookup_path (k :: p) (JDict d).
Proof.
  intros Hm Hk Hup Hdown. rewrite !lookup_path_cons.
  assert (restore_fields e d !! k = d !! k) as Hr
    by (by rewrite restore_fields_lookup, decide_False).
  destruct (merged_dict_inv _ _ _ Hm) as [[_ ->]|(g & tm & cfg & _ & Hd & Htm & ->)].
  { by rewrite Hr. }
  destruct (decide (k = "text_mem")) as [->|Hne]; [|by rewrite lookup_insert_ne, Hr].
  rewrite lookup_insert_eq, Hd. cbn [mbind option_bind].
  destruct p as [|k2 p].
  { destruct Hup. by exists ["config"; "graph_db"]. }
  rewrite !lookup_path_cons.
  destruct (decide (k2 = "config")) as [->|Hne2]; [|by rewrite lookup_insert_ne].
  rewrite lookup_insert_eq, Htm. cbn [mbind option_bind].
  destruct p as [|k3 p].
  { destruct Hup. by exists ["graph_db"]. }
  rewrite !lookup_path_cons.
  destruct (decide (k3 = "graph_db")) as [->|Hne3]; [|by rewrite lookup_insert_ne].
  destruct Hdown. by exists p.
Qed.

Lemma default_propagation_witness :
  lookup_path ["text_mem"; "config"; "extractor_llm"; "config"; "temperature"]
    (JDict (<["user_id" := JStr "alice"]>
              (<["cube_id" := JStr "cube_a"]> (plain_cube "default_user" "default_cube" 1))))
  = lookup_path ["text_mem"; "config"; "extractor_llm"; "config"; "temperature"]
      (JDict (plain_cube "default_user" "default_cube" 1)).
Proof.
  apply (default_propagation (plain_cube "alice" "cube_a" 0)).
  - vm_compute. reflexivity.
  - by_computation.
  - intros [q Hq]. discriminate Hq.
  - intros [q Hq]. discriminate Hq.
Defined.

Lemma text_config_shaped (c : dict) (tm : json) :
  well_shaped c → c !! "text_mem" = Some tm →
  ∃ dtm cfg, tm = JDict dtm ∧ default (JDict ∅) (dtm !! "config") = JDict cfg
    ∧ cfg !! "graph_db" = lookup_path graph_db_path (JDict c).
Proof.
  intros Hc Htm. destruct (Hc tm Htm) as (dtm & -> & Hcfg).
  unfold graph_db_path. rewrite lookup_path_cons, Htm. cbn [mbind option_bind].
  rewrite lookup_path_cons.
  destruct (dtm !! "config") as [cfg|] eqn:Hdtm.
  - destruct (Hcfg cfg eq_refl) as (dcfg & ->). exists dtm, dcfg. rewrite Hdtm.
    split_and!; [done..|]. cbn [mbind option_bind].
    rewrite lookup_path_cons. by destruct (dcfg !! "graph_db").
  - exists dtm, ∅. rewrite Hdtm. split_and!; [done..|]. by rewrite lookup_empty.
Qed.

Lemma preserved_graph_db_lacks (e d : dict) :
  well_shaped e → well_shaped d →
  lookup_path graph_db_path (JDict e) = None
  ∨ lookup_path graph_db_path (JDict d) = None →
  preserved_graph_db e d = Ok None.
Proof.
  intros He Hd Hlacks. unfold preserved_graph_db.
  destruct (e !! "text_mem") as [etm|] eqn:Hetm; [|done].
  destruct (d !! "text_mem") as [dtm|] eqn:Hdtm; [|done].
  destruct (text_config_shaped e etm He Hetm) as (etm' & ecfg & -> & Hecfg & Heg).
  destruct (text_config_shaped d dtm Hd Hdtm) as (dtm' & dcfg & -> & Hdcfg & Hdg).
  cbn [py_get]. rewrite !result_bind_Ok, Hecfg, Hdcfg. cbn [py_contains].
  rewrite !result_bind_Ok, Heg.
  destruct (lookup_path graph_db_path (JDict e)) as [x|] eqn:Hx.
  - destruct Hlacks as [|Hl]; [done|].
    rewrite bool_decide_eq_true_2 by eauto. cbn [py_contains].
    rewrite result_bind_Ok, Hdg, Hl. by rewrite bool_decide_eq_false_2 by (by intros [??]).
  - by rewrite bool_decide_eq_false_2 by (by intros [??]).
Qed.

(** C7.  No graph section on one side: when the existing or the default
    tree has nothing at [text_mem.config.graph_db], no graph section is
    carried over, the [text_mem] of any merged tree is the default's
    [text_mem], and on trees nested as the schema nests them the merge
    returns the default with the identity fields restored. *)
Theorem no_graph_db_pass_through (e d : dict) :
  lookup_path graph_db_path (JDict e) = None
  ∨ lookup_path graph_db_path (JDict d) = None →
  (∀ p, preserved_graph_db e d = Ok p → p = None)
  ∧ (∀ m, merged_dict e d = Ok m → m !! "text_mem" = d !! "text_mem")
  ∧ (well_shaped e → well_shaped d → merged_dict e d = Ok (restore_fields e d)).
Proof.
  intros Hlacks.
  assert (∀ p, preserved_graph_db e d = Ok p → p = None) as Hnone.
  { intros [g|] Hp; [|done].
    destruct (preserved_graph_db_Some _ _ _ Hp) as (egdb & dgdb & He & Hd).
    destruct Hlacks; congruence. }
  split_and!; [done| |].
  - intros m Hm.
    destruct (merged_dict_inv _ _ _ Hm) as [[_ ->]|(g & tm & cfg & Hp & _)].
    + apply restore_fields_text_mem.
    + by apply Hnone in Hp.
  - intros He Hd. by apply merged_dict_None, preserved_graph_db_lacks.
Qed.

Lemma plain_cube_well_shaped (user cube_id : string) (t : Z) :
  well_shaped (plain_cube user cube_id t).
Proof.
  intros tm Htm. eexists. split.
  - apply (inj Some). rewrite <- Htm. vm_compute. reflexivity.
  - intros cfg Hcfg. eexists. apply (inj Some). rewrite <- Hcfg. vm_compute. reflexivity.
Qed.

Lemma no_graph_db_pass_through_witness :
  let e := cube "alice" "cube_a" "neo4j" (JDict multi_A) in
  let d := plain_cube "default_user" "default_cube" 1 in
  (∀ p, preserved_graph_db e d = Ok p → p = None)
  ∧ (∀ m, merged_dict e d = Ok m → m !! "text_mem" = d !! "text_mem")
  ∧ (well_shaped e → well_shaped d → merged_dict e d = Ok (restore_fields e d)).
Proof.
  intros e d. apply (no_graph_db_pass_through e d).
  right. vm_compute. reflexivity.
Defined.

(** C9.  Validation failure: when [model_validate] rejects the assembled
    tree, the merge raises [ValidationError] and returns no record. *)
Theorem validation_failure_aborts {Config : Type}
    (model_dump : Config → dict) (model_validate : dict → option Config)
    (existing_config default_config : Config) (m : dict) :
  merged_dict (model_dump existing_config) (model_dump default_config) = Ok m →
  model_validate m = None →
  merge_config_with_default model_dump model_validate existing_config default_config
    = Raise ValidationError
  ∧ ∀ r, merge_config_with_default model_dump model_validate
           existing_config default_config ≠ Ok r.
Proof.
  intros Hm Hv. unfold merge_config_with_default.
  rewrite Hm, result_bind_Ok, Hv. by split.
Qed.

Lemma validation_failure_aborts_witness :
  let e := cube "alice" "cube_a" "neo4j" (JDict multi_A) in
  let d := cube "default_user" "default_cube" "neo4j" (JDict single_unnamed) in
  merge_config_with_default id require_db_name e d = Raise ValidationError
  ∧ ∀ r, merge_config_with_default id require_db_name e d ≠ Ok r.
Proof.
  intros e d.
  apply (validation_failure_aborts id require_db_name e d
           (cube "alice" "cube_a" "neo4j" (JDict downgraded_unnamed)));
    vm_compute; reflexivity.
Defined.

End TreeFacts.

(** ** Reference semantics: lemmas and theorems *)

Module StoreFacts.

Import Store.

Section wp.
Context {A B : Type}.

Lemma wp_ret (a : A) σ (Q : result A → store → Prop) : Q (Ok a) σ → wp (mret a) σ Q.
Proof. done. Qed.

Lemma wp_raise (e : exn) σ (Q : result A → store → Prop) :
  Q (Raise e) σ → wp (raise e) σ Q.
Proof. done. Qed.

Lemma wp_bind (m : M A) (f : A → M B) σ (Q : result B → store → Prop) :
  wp m σ (fun r σ1 => match r with
                      | Ok a => wp (f a) σ1 Q
                      | Raise e => Q (Raise e) σ1
                      end) →
  wp (m ≫= f) σ Q.
Proof.
  unfold wp, mbind, M_bind. by destruct (m σ) as [[a|e] σ1].
Qed.

Lemma wp_mono (m : M A) σ (Q Q' : result A → store → Prop) :
  wp m σ Q → (∀ r s, Q r s → Q' r s) → wp m σ Q'.
Proof. unfold wp. auto. Qed.
End wp.

Lemma wp_load l σ (Q : result obj → store → Prop) :
  (∀ o, σ !! l = Some o → Q (Ok o) σ) →
  (σ !! l = None → Q (Raise SystemError) σ) →
  wp (load l) σ Q.
Proof.
  intros Hsome Hnone. unfold wp, load.
  destruct (σ !! l) as [o|] eqn:Hl; simpl; auto.
Qed.

Lemma wp_alloc o σ (Q : result val → store → Prop) :
  Q (Ok (VRef (length σ))) (σ ++ [o])%list → wp (alloc o) σ Q.
Proof. done. Qed.

Lemma wp_write l o σ (Q : result unit → store → Prop) :
  Q (Ok tt) (<[l:=o]> σ) → wp (write l o) σ Q.
Proof. done. Qed.

Lemma wp_for_each {X} (I : store → Prop) (xs : list X) (body : X → M unit) σ :
  I σ →
  (∀ x s, x ∈ xs → I s → wp (body x) s (fun _ s' => I s')) →
  wp (for_each xs body) σ (fun _ s' => I s').
Proof.
  revert σ. induction xs as [|x xs IH]; intros σ Hσ Hbody; [done|].
  cbn [for_each]. apply wp_bind.
  eapply wp_mono; [apply Hbody; [left|done]|].
  intros [[]|e] s Hs; [|done].
  apply IH; [done|]. intros y s' Hy. apply Hbody. by right.
Qed.


Lemma wp_reads {A} (m : M A) σ (Q : result A → store → Prop) :
  reads m → (∀ r, Q r σ) → wp m σ Q.
Proof. intros Hm HQ. unfold wp. rewrite Hm. apply HQ. Qed.

Lemma reads_ret {A} (a : A) : reads (mret a).
Proof. done. Qed.
Lemma reads_raise {A} e : reads (@raise A e).
Proof. done. Qed.
Lemma reads_load l : reads (load l).
Proof. intros σ. unfold load. by destruct (σ !! l). Qed.
Lemma reads_bind {A B} (m : M A) (f : A → M B) :
  reads m → (∀ a, reads (f a)) → reads (m ≫= f).
Proof.
  intros Hm Hf σ. unfold mbind, M_bind. specialize (Hm σ).
  destruct (m σ) as [[a|e] σ1]; simpl in *; subst; [apply Hf|done].
Qed.

Ltac reads_tac :=
  repeat first
    [ apply reads_ret | apply reads_raise | apply reads_load
    | apply reads_bind; [|intros ?]
    | match goal with |- reads (match ?x with _ => _ end) => destruct x end ].

Lemma reads_py_truthy v : reads (py_truthy v).
Proof. unfold py_truthy. reads_tac. Qed.
Lemma reads_py_contains k v : reads (py_contains k v).
Proof. unfold py_contains. reads_tac. Qed.
Lemma reads_py_get v k dflt : reads (py_get v k dflt).
Proof. unfold py_get. reads_tac. Qed.
Lemma reads_py_getitem v k : reads (py_getitem v k).
Proof. unfold py_getitem. reads_tac. Qed.
Lemma reads_py_items v : reads (py_items v).
Proof. unfold py_items. reads_tac. Qed.

(** ** Writes above a prefix keep it *)

Lemma prefix_insert_ge (σ0 σ : store) (l : nat) (o : obj) :
  σ0 `prefix_of` σ → (length σ0 ≤ l)%nat → σ0 `prefix_of` <[l:=o]> σ.
Proof.
  intros [k ->] Hl. rewrite insert_app_r_alt by done. by apply prefix_app_r.
Qed.

Lemma forward_from_extend (a : nat) (s s1 : store) :
  forward_from a s → s `prefix_of` s1 → forward_from (length s) s1 →
  forward_from a s1.
Proof.
  intros Hs Hpre Hs1 l o Hl Ho.
  destruct (decide (l < length s)%nat) as [Hlt|Hge].
  - apply (Hs l o Hl). rewrite (prefix_lookup_lt s s1 l) by done. done.
  - apply (Hs1 l o); [lia|done].
Qed.

Lemma forward_from_end (σ : store) : forward_from (length σ) σ.
Proof.
  intros l o Hl Ho. apply lookup_lt_Some in Ho. lia.
Qed.

Lemma fresh_mono (n n' : nat) (v : val) : (n ≤ n')%nat → fresh n' v → fresh n v.
Proof. destruct v; simpl; [done..|lia]. Qed.


Lemma copy_root_fresh (v v' : val) (σ σ' : store) :
  copy_root v v' σ σ' → fresh (length σ) v'.
Proof.
  destruct v; simpl; try (by intros ->). intros [-> _]. simpl. lia.
Qed.



Lemma copying_step (σ s s1 : store) :
  copying σ s → s `prefix_of` s1 → forward_from (length s) s1 → copying σ s1.
Proof.
  intros (Hpre & Hlen & Hfwd) Hs Hs1. split_and!.
  - by etrans.
  - apply prefix_length in Hs. lia.
  - by eapply forward_from_extend.
Qed.

Lemma copying_write (σ s : store) (o o' : obj) :
  copying σ s → s !! length σ = Some o →
  (obj_fresh (S (length σ)) o → obj_fresh (S (length σ)) o') →
  copying σ (<[length σ := o']> s).
Proof.
  intros (Hpre & Hlen & Hfwd) Ho Hfresh. split_and!.
  - by apply prefix_insert_ge.
  - by rewrite length_insert.
  - intros l x Hl. destruct (decide (l = length σ)) as [->|Hne].
    + rewrite list_lookup_insert_eq by done. intros [= <-].
      apply Hfresh. by apply (Hfwd (length σ) o).
    + rewrite list_lookup_insert_ne by done. by apply Hfwd.
Qed.

Lemma wp_deepcopy (fuel : nat) (v : val) (σ : store) :
  wp (deepcopy fuel v) σ
     (fun r σ' => σ `prefix_of` σ' ∧ forward_from (length σ) σ'
                  ∧ ∀ v', r = Ok v' → copy_root v v' σ σ').
Proof.
  revert v σ. induction fuel as [|fuel IH]; intros v σ.
  - destruct v; try (apply wp_ret; split_and!;
                     [done|apply forward_from_end|by intros ? [= <-]]).
    apply wp_raise. split_and!; [done|apply forward_from_end|done].
  - destruct v as [| | | | |l]; try (apply wp_ret; split_and!;
                     [done|apply forward_from_end|by intros ? [= <-]]).
    cbn [deepcopy]. apply wp_bind, wp_load.
    2:{ intros _. split_and!; [done|apply forward_from_end|done]. }
    intros o Ho. destruct o as [d|xs].
    + apply wp_bind, wp_alloc, wp_bind.
      eapply wp_mono.
      * apply (wp_for_each (copying σ)).
        { split_and!; [by apply prefix_app_r|rewrite length_app; simpl; lia|].
          intros l' o' Hl' Ho'. 
          assert (l' = length σ) as ->.
          { apply lookup_lt_Some in Ho' as Hlt. rewrite length_app in Hlt.
            simpl in Hlt. lia. }
          rewrite lookup_app_r, Nat.sub_diag in Ho' by done.
          injection Ho' as <-. apply map_Forall_empty. }
        intros [k x] s _ Hs. cbn [fst snd]. apply wp_bind.
        eapply wp_mono; [apply IH|].
        intros r s1 (Hpre1 & Hfwd1 & Hroot).
        pose proof (copying_step _ _ _ Hs Hpre1 Hfwd1) as Hs1.
        destruct r as [x'|e]; [|done].
        unfold py_setitem. apply wp_bind, wp_load; [|done].
        intros [d'|xs'] Ho'; [|by apply wp_raise].
        apply wp_write. eapply copying_write; [done..|].
        intros Hd'. apply map_Forall_insert_2; [|done].
        specialize (Hroot x' eq_refl). destruct Hs as (_ & Hlen & _).
        destruct x; simpl in Hroot; subst; simpl; try done.
        destruct Hroot as [-> _]. simpl. lia.
      * intros r s (Hpre & Hlen & Hfwd). destruct r as [[]|e].
        -- apply wp_ret. split_and!; [done..|]. by intros ? [= <-].
        -- done.
    + apply wp_bind, wp_alloc, wp_bind.
      eapply wp_mono.
      * apply (wp_for_each (copying σ)).
        { split_and!; [by apply prefix_app_r|rewrite length_app; simpl; lia|].
          intros l' o' Hl' Ho'. 
          assert (l' = length σ) as ->.
          { apply lookup_lt_Some in Ho' as Hlt. rewrite length_app in Hlt.
            simpl in Hlt. lia. }
          rewrite lookup_app_r, Nat.sub_diag in Ho' by done.
          injection Ho' as <-. apply Forall_nil_2. }
        intros x s _ Hs. apply wp_bind.
        eapply wp_mono; [apply IH|].
        intros r s1 (Hpre1 & Hfwd1 & Hroot).
        pose proof (copying_step _ _ _ Hs Hpre1 Hfwd1) as Hs1.
        destruct r as [x'|e]; [|done].
        unfold py_append. apply wp_bind, wp_load; [|done].
        intros [d'|xs'] Ho'; [by apply wp_raise|].
        apply wp_write. eapply copying_write; [done..|].
        intros Hd'. apply Forall_app_2; [done|]. apply Forall_singleton.
        specialize (Hroot x' eq_refl). destruct Hs as (_ & Hlen & _).
        destruct x; simpl in Hroot; subst; simpl; try done.
        destruct Hroot as [-> _]. simpl. lia.
      * intros r s (Hpre & Hlen & Hfwd). destruct r as [[]|e].
        -- apply wp_ret. split_and!; [done..|]. by intros ? [= <-].
        -- done.
Qed.

(** ** Computations that keep a given store as a prefix *)


Section keeps.
Variable σ0 : store.

Lemma keeps_ret {A} (a : A) (P : A → Prop) : P a → keeps σ0 (mret a) P.
Proof. intros Ha σ Hσ. apply wp_ret. split; [done|]. by intros ? [= <-]. Qed.

Lemma keeps_raise {A} (e : exn) (P : A → Prop) : keeps σ0 (raise e) P.
Proof. intros σ Hσ. by apply wp_raise. Qed.

Lemma keeps_reads {A} (m : M A) : reads m → keeps σ0 m (fun _ => True).
Proof. intros Hm σ Hσ. by apply wp_reads. Qed.

Lemma keeps_weaken {A} (m : M A) (P P' : A → Prop) :
  keeps σ0 m P → (∀ a, P a → P' a) → keeps σ0 m P'.
Proof.
  intros Hm HP σ Hσ. eapply wp_mono; [by apply Hm|].
  intros r s [Hs Hr]. split; [done|]. intros a ->. by apply HP, Hr.
Qed.

Lemma keeps_bind {A B} (m : M A) (f : A → M B) (P : A → Prop) (Q : B → Prop) :
  keeps σ0 m P → (∀ a, P a → keeps σ0 (f a) Q) → keeps σ0 (m ≫= f) Q.
Proof.
  intros Hm Hf σ Hσ. apply wp_bind. eapply wp_mono; [by apply Hm|].
  intros [a|e] s [Hs Hr]; [|done]. apply Hf; [by apply Hr|done].
Qed.

Lemma keeps_alloc (o : obj) : keeps σ0 (alloc o) (fresh (length σ0)).
Proof.
  intros σ Hσ. apply wp_alloc. split; [by apply prefix_app_r|].
  intros ? [= <-]. simpl. by apply prefix_length.
Qed.

Lemma keeps_py_setitem (v : val) (k : string) (x : val) :
  fresh (length σ0) v → keeps σ0 (py_setitem v k x) (fun _ => True).
Proof.
  intros Hv σ Hσ. unfold py_setitem.
  destruct v as [| | | | |l]; try by apply wp_raise.
  apply wp_bind, wp_load; [|done].
  intros [d|xs] _; [|by apply wp_raise].
  apply wp_write. split; [|done]. by apply prefix_insert_ge.
Qed.

Lemma keeps_for_each {X} (xs : list X) (body : X → M unit) :
  (∀ x, keeps σ0 (body x) (fun _ => True)) →
  keeps σ0 (for_each xs body) (fun _ => True).
Proof.
  intros Hbody σ Hσ. eapply wp_mono.
  - apply (wp_for_each (fun s => σ0 `prefix_of` s)); [done|].
    intros x s _ Hs. eapply wp_mono; [by apply Hbody|]. by intros r s' [? _].
  - by intros r s Hs.
Qed.

Lemma keeps_deepcopy (fuel : nat) (v : val) :
  keeps σ0 (deepcopy fuel v) (fresh (length σ0)).
Proof.
  intros σ Hσ. eapply wp_mono; [apply wp_deepcopy|].
  intros r s (Hs & _ & Hroot). split; [by etrans|].
  intros v' ->. apply (fresh_mono _ (length σ)); [by apply prefix_length|].
  by eapply copy_root_fresh, Hroot.
Qed.

Lemma keeps_py_get_or_empty (v : val) (k : string) :
  keeps σ0 (py_get_or_empty v k) (fun _ => True).
Proof.
  unfold py_get_or_empty. destruct v as [| | | | |l]; try apply keeps_raise.
  eapply keeps_bind; [apply keeps_reads, reads_load|].
  intros [d|xs] _; [|apply keeps_raise].
  eapply keeps_bind; [apply keeps_alloc|]. intros e _. by apply keeps_ret.
Qed.

Ltac keeps_read :=
  first [ apply keeps_reads, reads_py_truthy
        | apply keeps_reads, reads_py_contains
        | apply keeps_reads, reads_py_get
        | apply keeps_reads, reads_py_getitem
        | apply keeps_reads, reads_py_items
        | apply keeps_reads, reads_ret ].


Lemma keeps_merged_graph_config (fuel : nat) (egc dgc : val) :
  keeps σ0 (merged_graph_config fuel egc dgc) (fresh (length σ0)).
Proof.
  unfold merged_graph_config.
  eapply keeps_bind; [apply keeps_deepcopy|]. intros merged Hmerged.
  eapply keeps_bind; [keeps_read|]. intros items _.
  eapply keeps_bind.
  { apply keeps_for_each. intros [k x]. cbn [fst snd].
    destruct (decide (k ∈ Tree.preserve_graph_fields)); [by apply keeps_ret|].
    by apply keeps_py_setitem. }
  intros _ _.
  eapply keeps_bind; [keeps_read|]. intros default_multi _.
  eapply keeps_bind; [keeps_read|]. intros [|] _; cbn [negb]; [by apply keeps_ret|].
  eapply keeps_bind; [keeps_read|]. intros merged_multi _.
  eapply keeps_bind; [keeps_read|]. intros [|] _; [|by apply keeps_ret].
  eapply keeps_bind; [by apply keeps_py_setitem|]. intros _ _.
  eapply keeps_bind; [keeps_read|]. intros db_name _.
  eapply keeps_bind; [by apply keeps_py_setitem|]. intros _ _.
  eapply keeps_bind; [keeps_read|]. intros default_db_name _.
  eapply keeps_bind; [by apply keeps_py_setitem|]. intros _ _.
  by apply keeps_ret.
Qed.

Lemma keeps_preserved_graph_db (fuel : nat) (existing_dict default_dict : val) :
  keeps σ0 (preserved_graph_db fuel existing_dict default_dict) (fun _ => True).
Proof.
  unfold preserved_graph_db.
  eapply keeps_bind; [keeps_read|]. intros in_existing _.
  eapply keeps_bind; [destruct in_existing; keeps_read|].
  intros [|] _; [|by apply keeps_ret].
  eapply keeps_bind; [keeps_read|]. intros existing_text_mem _.
  eapply keeps_bind; [apply keeps_py_get_or_empty|]. intros existing_text_config _.
  eapply keeps_bind; [keeps_read|]. intros default_text_mem _.
  eapply keeps_bind; [apply keeps_py_get_or_empty|]. intros default_text_config _.
  eapply keeps_bind; [keeps_read|]. intros g_existing _.
  eapply keeps_bind; [destruct g_existing; keeps_read|].
  intros [|] _; [|by apply keeps_ret].
  eapply keeps_bind; [keeps_read|]. intros existing_graph_db _.
  eapply keeps_bind; [keeps_read|]. intros existing_graph_config _.
  eapply keeps_bind; [keeps_read|]. intros default_graph_db _.
  eapply keeps_bind; [keeps_read|]. intros default_graph_config _.
  eapply keeps_bind; [apply keeps_merged_graph_config|]. intros merged _.
  eapply keeps_bind; [keeps_read|]. intros existing_graph_db' _.
  eapply keeps_bind; [keeps_read|]. intros backend _.
  eapply keeps_weaken; [apply keeps_alloc|done].
Qed.
End keeps.

Lemma wp_py_getitem (v : val) (k : string) σ (Q : result val → store → Prop) :
  (∀ l d x, v = VRef l → σ !! l = Some (ODict d) → d !! k = Some x → Q (Ok x) σ) →
  (∀ e, Q (Raise e) σ) →
  wp (py_getitem v k) σ Q.
Proof.
  intros Hok Herr. unfold py_getitem.
  destruct v as [| | | | |l]; try by apply wp_raise.
  apply wp_bind, wp_load; [|done].
  intros [d|xs] Hl; [|by apply wp_raise].
  destruct (d !! k) as [x|] eqn:Hk; [|by apply wp_raise].
  apply wp_ret. by eapply Hok.
Qed.

Section merged_dict.
Variable σ0 : store.


Lemma wp_restore_fields (existing_dict merged : val) (a : nat) (s2 : store) :
  σ0 `prefix_of` s2 → (length σ0 ≤ a)%nat →
  (∀ l, merged = VRef l → l = a) →
  wp (restore_fields existing_dict merged) s2 (fun _ s => restoring σ0 a s2 s).
Proof.
  intros Hs2 Ha Hmerged. unfold restore_fields.
  apply (wp_for_each (restoring σ0 a s2)).
  { split_and!; [done..|]. intros dc Hdc. by exists dc. }
  intros field s Hfield (Hs & Hother & Hroot).
  apply wp_bind, wp_reads; [apply reads_py_contains|].
  intros [[|]|e]; [|by apply wp_ret|done].
  apply wp_bind, wp_reads; [apply reads_py_getitem|].
  intros [v|e]; [|done].
  unfold py_setitem. destruct merged as [| | | | |l]; try by apply wp_raise.
  rewrite (Hmerged l eq_refl).
  apply wp_bind, wp_load; [|done].
  intros [dc|xs] Hl; [|by apply wp_raise].
  apply wp_write. split_and!.
  - by apply prefix_insert_ge.
  - intros l' Hl'. rewrite list_lookup_insert_ne by done. by apply Hother.
  - intros dc'. rewrite list_lookup_insert_eq by (by eapply lookup_lt_Some).
    intros [= <-]. destruct (Hroot dc Hl) as (d2 & Hd2 & Htm). exists d2.
    split; [done|]. rewrite lookup_insert_ne; [done|].
    intros ->. apply elem_of_elements in Hfield. revert Hfield.
    apply (bool_decide_unpack _). vm_compute. exact I.
Qed.

Lemma wp_merged_dict (fuel : nat) (existing_dict default_dict : val) (σ : store) :
  σ0 `prefix_of` σ →
  wp (merged_dict fuel existing_dict default_dict) σ
     (fun _ σ' => σ0 `prefix_of` σ').
Proof.
  intros Hσ. unfold merged_dict.
  apply wp_bind. eapply wp_mono; [by apply keeps_preserved_graph_db|].
  intros [preserved|e] s1 [Hs1 _]; [|done].
  apply wp_bind. eapply wp_mono; [apply wp_deepcopy|].
  intros [merged|e] s2 (Hpre2 & Hfwd2 & Hroot); [|by etrans].
  specialize (Hroot merged eq_refl).
  assert (σ0 `prefix_of` s2) as Hs2 by (by etrans).
  assert (length σ0 ≤ length s1)%nat as Hlen by (by apply prefix_length).
  assert (∀ l, merged = VRef l → l = length s1) as Hmerged.
  { intros l ->. destruct default_dict; simpl in Hroot; try done.
    destruct Hroot as [[= ->] _]. done. }
  apply wp_bind. eapply wp_mono; [by apply (wp_restore_fields _ _ (length s1))|].
  intros [[]|e] s3 (Hs3 & Hother & Hrootobj); [|done].
  apply wp_bind, wp_reads; [apply reads_py_truthy|].
  intros [nonempty|e]; [|done].
  apply wp_bind, wp_reads; [destruct nonempty; [apply reads_py_contains|apply reads_ret]|].
  intros [has_text|e]; [|done].
  apply wp_bind. destruct has_text; [|by apply wp_ret].
  apply wp_bind, wp_py_getitem; [|done].
  intros l dc text_mem -> Hl Htm. rewrite (Hmerged l eq_refl) in Hl.
  destruct (Hrootobj dc Hl) as (d2 & Hd2 & Htm2). rewrite Htm in Htm2.
  pose proof (Hfwd2 _ _ (reflexivity _) Hd2 "text_mem" text_mem (eq_sym Htm2)) as Hfresh.
  apply wp_bind, wp_py_getitem; [|done].
  intros t dt config -> Ht Hconfig. simpl in Hfresh.
  rewrite Hother in Ht by lia.
  pose proof (Hfwd2 t _ ltac:(lia) Ht "config" config Hconfig) as Hfresh'.
  eapply wp_mono.
  - apply (keeps_py_setitem σ0); [|done].
    apply (fresh_mono _ (S t)); [lia|done].
  - intros [[]|e] s4 [Hs4 _]; [by apply wp_ret|done].
Qed.
End merged_dict.

Lemma snapshot_prefix (n : nat) (σ σ' : store) (v : val) (t : json) :
  σ `prefix_of` σ' → snapshot n σ v = Some t → snapshot n σ' v = Some t.
Proof.
  intros Hpre. revert v t.
  induction n as [|n IH]; intros v t; destruct v as [| | | | |l]; try done.
  cbn [snapshot].
  destruct (σ !! l) as [o|] eqn:Hl; [|done].
  rewrite (prefix_lookup_Some _ _ _ _ Hl Hpre). destruct o as [d|xs].
  - intros (kts & Hk & Ht)%bind_Some. apply bind_Some. exists kts. split; [|done].
    apply mapM_Some in Hk. apply mapM_Some.
    eapply Forall2_impl; [exact Hk|].
    intros [k x] kt (t0 & Ht0 & Hkt)%bind_Some. apply bind_Some.
    exists t0. split; [by apply IH|done].
  - intros (ts & Hk & Ht)%bind_Some. apply bind_Some. exists ts. split; [|done].
    apply mapM_Some in Hk. apply mapM_Some.
    eapply Forall2_impl; [exact Hk|]. intros x t0. apply IH.
Qed.

Lemma deepcopy_prefix (fuel : nat) (v : val) (σ : store) :
  σ `prefix_of` (deepcopy fuel v σ).2.
Proof. by destruct (wp_deepcopy fuel v σ) as [? _]. Qed.

(** C8.  Non-mutation: whatever the merge does (return or raise), the store
    it started in is a prefix of the store it ends in, provided the two
    pydantic conversions only create objects: no object that existed before
    the call is written.  Hence every value denotes after the call the tree
    it denoted before; in particular both inputs do. *)
Theorem inputs_not_mutated
    (model_dump model_validate : val → M val) (fuel : nat)
    (existing_config default_config : val) (σ : store) :
  (∀ v s, s `prefix_of` (model_dump v s).2) →
  (∀ v s, s `prefix_of` (model_validate v s).2) →
  let σ' := (merge_config_with_default model_dump model_validate fuel
               existing_config default_config σ).2 in
  σ `prefix_of` σ'
  ∧ ∀ n v t, snapshot n σ v = Some t → snapshot n σ' v = Some t.
Proof.
  intros Hdump Hvalidate σ'.
  assert (σ `prefix_of` σ') as Hpre.
  { subst σ'. unfold merge_config_with_default.
    change (wp (existing_dict ← model_dump existing_config;
                default_dict ← model_dump default_config;
                merged ← merged_dict fuel existing_dict default_dict;
                model_validate merged) σ (fun _ s => σ `prefix_of` s)).
    apply wp_bind. unfold wp at 1. specialize (Hdump existing_config σ) as H1.
    destruct (model_dump existing_config σ) as [[existing_dict|e] s1]; [|done].
    cbn [fst snd] in *.
    apply wp_bind. unfold wp at 1. specialize (Hdump default_config s1) as H2.
    destruct (model_dump default_config s1) as [[default_dict|e] s2];
      cbn [fst snd] in *; [|by etrans].
    assert (σ `prefix_of` s2) as Hs2 by (by etrans).
    apply wp_bind. eapply wp_mono; [by apply wp_merged_dict|].
    intros [merged|e] s3 Hs3; [|done].
    unfold wp. etrans; [exact Hs3|apply Hvalidate]. }
  split; [done|]. intros n v t. by apply snapshot_prefix.
Qed.

Lemma inputs_not_mutated_witness :
  let σ' := (merge_config_with_default (deepcopy 8) (fun v => mret v) 8
               (VRef 0) (VRef 5) Samples.sample_store).2 in
  Samples.sample_store `prefix_of` σ'
  ∧ ∀ n v t, snapshot n Samples.sample_store v = Some t → snapshot n σ' v = Some t.
Proof.
  apply (inputs_not_mutated (deepcopy 8) (fun v => mret v) 8
           (VRef 0) (VRef 5) Samples.sample_store).
  - intros v s. apply deepcopy_prefix.
  - intros v s. reflexivity.
Defined.

End StoreFacts.

(** ** Further properties of the merge *)

Module TreeMore.
Import Tree Samples MoreSamples Shape TreeFacts.

(** X1.  The assembly fails only in the graph section: [merged_dict] raises
    an exception exactly when lines 63-99 raise it; restoring the identity
    fields and installing the graph section never fail. *)
Theorem merged_dict_raises_iff (e d : dict) (x : exn) :
  merged_dict e d = Raise x ↔ preserved_graph_db e d = Raise x.
Proof.
  destruct (preserved_graph_db e d) as [[g|]|err] eqn:Hp.
  - destruct (merged_dict_Some _ _ _ Hp) as (tm & cfg & _ & _ & ->).
    split; intros H; discriminate H.
  - rewrite (merged_dict_None _ _ Hp). split; intros H; discriminate H.
  - assert (merged_dict e d = Raise err) as -> by (unfold merged_dict; by rewrite Hp).
    split; intros [= ->]; reflexivity.
Qed.

Lemma preserved_graph_db_graph (e d eg dg : dict) (b : json) :
  graph_config e = Some (JDict eg) → graph_backend e = Some b →
  graph_config d = Some (JDict dg) →
  ∃ mg, merged_graph_config (JDict eg) (JDict dg) = Ok (JDict mg)
    ∧ preserved_graph_db e d
      = Ok (Some (JDict {[ "backend" := b; "config" := JDict mg ]})).
Proof.
  intros (egdb & He & Heg)%graph_config_inv (egdb' & He' & Hb)%graph_backend_inv
         (dgdb & Hd & Hdg)%graph_config_inv.
  rewrite He in He'. apply (inj Some) in He'.
  assert (egdb' = egdb) as -> by (by apply JDict_inj). clear He'.
  rewrite (preserved_graph_db_both _ _ _ _ He Hd).
  rewrite (py_getitem_dict _ _ _ Heg), result_bind_Ok.
  rewrite (py_getitem_dict _ _ _ Hdg), result_bind_Ok.
  rewrite merged_graph_config_dict, result_bind_Ok.
  rewrite (py_getitem_dict _ _ _ Hb), result_bind_Ok.
  eexists. split; reflexivity.
Qed.

Lemma overwritten_idem (eg dg : dict) :
  overwritten (overwritten eg dg) dg = overwritten eg dg.
Proof.
  apply map_eq. intros k. rewrite !overwritten_lookup.
  destruct (decide (k ∈ preserve_graph_fields)); [done|]. by destruct (dg !! k).
Qed.

(** Lines 80-94 run again on their own result change nothing. *)
Lemma merged_graph_config_idem (eg dg mg : dict) :
  merged_graph_config (JDict eg) (JDict dg) = Ok (JDict mg) →
  merged_graph_config (JDict mg) (JDict dg) = Ok (JDict mg).
Proof.
  rewrite !merged_graph_config_dict. intros Hmg. apply Ok_inj, JDict_inj in Hmg.
  f_equal. f_equal.
  destruct (truthy (default (JBool true) (dg !! "use_multi_db"))) eqn:Hd;
    cbn [negb andb] in *.
  { subst mg. apply overwritten_idem. }
  destruct (truthy (default (JBool true) (eg !! "use_multi_db"))) eqn:He.
  - assert (mg !! "use_multi_db" = Some (JBool false)) as Hflag.
    { subst mg. rewrite lookup_insert_ne by done.
      rewrite lookup_insert_ne by done. apply lookup_insert_eq. }
    rewrite Hflag.
    change (truthy (default (JBool true) (Some (JBool false)))) with false.
    cbv iota.
    apply map_eq. intros k. rewrite overwritten_lookup.
    destruct (decide (k ∈ preserve_graph_fields)) as [Hk|Hk]; [done|].
    destruct (dg !! k) as [v|] eqn:Hv; [|done].
    subst mg. destruct (decide (k = "db_name")) as [->|Hdb].
    { by rewrite lookup_insert_eq, Hv. }
    rewrite lookup_insert_ne by done.
    assert (k ≠ "user_name") by (intros ->; apply Hk; by_computation).
    assert (k ≠ "use_multi_db") by (intros ->; apply Hk; by_computation).
    rewrite !lookup_insert_ne by done.
    by rewrite overwritten_lookup, decide_False, Hv.
  - subst mg. rewrite overwritten_idem.
    assert (overwritten eg dg !! "use_multi_db" = eg !! "use_multi_db") as ->.
    { by rewrite overwritten_lookup, decide_True by by_computation. }
    by rewrite He.
Qed.

Lemma restore_fields_again (e d m : dict) :
  (∀ f, f ∈ preserve_fields → m !! f = restore_fields e d !! f) →
  restore_fields m d = restore_fields e d.
Proof.
  intros Hm. apply map_eq. intros f. rewrite !restore_fields_lookup.
  destruct (decide (f ∈ preserve_fields)) as [Hf|Hf]; [|done].
  rewrite (Hm f Hf), restore_fields_lookup, decide_True by done.
  destruct (e !! f); [done|]. by destruct (d !! f).
Qed.

(** X2.  Idempotence: when both configurations have a graph section,
    merging the result of the merge again with the same default returns the
    same tree. *)
Theorem merge_idempotent (e d eg dg : dict) (b : json) :
  graph_config e = Some (JDict eg) → graph_backend e = Some b →
  graph_config d = Some (JDict dg) →
  ∃ m, merged_dict e d = Ok m ∧ merged_dict m d = Ok m.
Proof.
  intros He Hb Hd.
  destruct (merged_dict_graph e d eg dg b He Hb Hd) as (m & mg & Hm & Hmg & Hg & Hmb).
  exists m. split; [done|].
  destruct (preserved_graph_db_graph e d eg dg b He Hb Hd) as (mg1 & Hmg1 & Hp).
  rewrite Hmg in Hmg1. apply Ok_inj, JDict_inj in Hmg1. subst mg1.
  destruct (merged_dict_Some _ _ _ Hp) as (tm & cfg & Hdtm & Htm & Hm1).
  rewrite Hm in Hm1. apply Ok_inj in Hm1.
  destruct (preserved_graph_db_graph m d mg dg b Hg Hmb Hd) as (mg2 & Hmg2 & Hp2).
  rewrite (merged_graph_config_idem _ _ _ Hmg) in Hmg2.
  apply Ok_inj, JDict_inj in Hmg2. subst mg2.
  destruct (merged_dict_Some _ _ _ Hp2) as (tm' & cfg' & Hdtm' & Htm' & Hm2).
  rewrite Hdtm in Hdtm'. apply (inj Some), JDict_inj in Hdtm'. subst tm'.
  rewrite Htm in Htm'. apply (inj Some), JDict_inj in Htm'. subst cfg'.
  rewrite Hm2. f_equal. rewrite Hm1 at 2. f_equal.
  apply restore_fields_again. intros f Hf. rewrite Hm1.
  rewrite lookup_insert_ne; [done|]. intros <-. revert Hf. by_computation.
Qed.

Lemma merge_idempotent_witness :
  ∃ m, merged_dict (cube "alice" "cube_a" "neo4j" (JDict multi_A))
                   (cube "default_user" "default_cube" "nebular" (JDict single_B)) = Ok m
    ∧ merged_dict m (cube "default_user" "default_cube" "nebular" (JDict single_B)) = Ok m.
Proof.
  apply (merge_idempotent _ _ multi_A single_B (JStr "neo4j")); vm_compute; reflexivity.
Defined.

(** X3.  The graph section of the result has the two keys [backend] and
    [config] only: any other key that the existing or the default graph
    section has is gone from the result. *)
Theorem graph_section_has_two_keys (e d eg dg : dict) (b : json) (k : string) :
  graph_config e = Some (JDict eg) → graph_backend e = Some b →
  graph_config d = Some (JDict dg) →
  k ≠ "backend" → k ≠ "config" →
  ∃ m, merged_dict e d = Ok m
    ∧ lookup_path (graph_db_path ++ [k]) (JDict m) = None.
Proof.
  intros He Hb Hd Hk1 Hk2.
  destruct (preserved_graph_db_graph e d eg dg b He Hb Hd) as (mg & _ & Hp).
  destruct (merged_dict_Some _ _ _ Hp) as (tm & cfg & _ & _ & Hm).
  eexists. split; [exact Hm|].
  rewrite lookup_path_app, lookup_path_installed. cbn [mbind option_bind].
  rewrite lookup_path_cons, lookup_insert_ne by done.
  by rewrite lookup_singleton_ne.
Qed.

Lemma graph_section_has_two_keys_witness :
  ∃ m, merged_dict
         (<["text_mem" := JDict {[ "config" := JDict {[ "graph_db" :=
              JDict {[ "backend" := JStr "neo4j"; "config" := JDict multi_A;
                       "comment" := JStr "mine" ]} ]} ]}]> ∅)
         (cube "default_user" "default_cube" "neo4j" (JDict multi_B)) = Ok m
    ∧ lookup_path (graph_db_path ++ ["comment"]) (JDict m) = None.
Proof.
  apply (graph_section_has_two_keys _ _ multi_A multi_B (JStr "neo4j"));
    [vm_compute; reflexivity..|done|done].
Defined.

(** X4.  The downgrade, for every falsy [use_multi_db] of the default
    (false, null, 0, ...) and an existing [use_multi_db] that is truthy or
    absent: [use_multi_db] becomes false, [db_name] becomes the default's
    [db_name], or null when the default has none, and [user_name] becomes
    the database name the overwrite loop left: the default's when the
    default has one, else the existing one, else null. *)
Theorem downgrade_rewrite (e d eg dg : dict) (b flag : json) :
  graph_config e = Some (JDict eg) → graph_backend e = Some b →
  graph_config d = Some (JDict dg) →
  dg !! "use_multi_db" = Some flag → truthy flag = false →
  truthy (default (JBool true) (eg !! "use_multi_db")) = true →
  ∃ m mg, merged_dict e d = Ok m ∧ graph_config m = Some (JDict mg)
    ∧ mg !! "use_multi_db" = Some (JBool false)
    ∧ mg !! "db_name" = Some (default JNone (dg !! "db_name"))
    ∧ mg !! "user_name" =
        Some (match dg !! "db_name" with
              | Some v => v
              | None => default JNone (eg !! "db_name")
              end).
Proof.
  intros He Hb Hd Hflag Hfalsy Hmulti.
  destruct (merged_dict_graph e d eg dg b He Hb Hd) as (m & mg & Hm & Hmg & Hg & _).
  rewrite merged_graph_config_dict, Hflag in Hmg.
  change (default (JBool true) (Some flag)) with flag in Hmg.
  rewrite Hfalsy, Hmulti in Hmg. cbn [negb andb] in Hmg.
  apply Ok_inj, JDict_inj in Hmg. subst mg.
  eexists _, _. split; [exact Hm|]. split; [exact Hg|]. split_and!.
  - rewrite !lookup_insert_ne by done. apply lookup_insert_eq.
  - apply lookup_insert_eq.
  - rewrite lookup_insert_ne by done. rewrite lookup_insert_eq.
    rewrite overwritten_lookup, decide_False by by_computation.
    by destruct (dg !! "db_name").
Qed.

(** X5.  A default in single-database mode gives a result in
    single-database mode: when the default's [use_multi_db] is present and
    falsy, the merged [use_multi_db] is falsy too. *)
Theorem single_db_default_gives_single_db (e d eg dg : dict) (b flag : json) :
  graph_config e = Some (JDict eg) → graph_backend e = Some b →
  graph_config d = Some (JDict dg) →
  dg !! "use_multi_db" = Some flag → truthy flag = false →
  ∃ m mg, merged_dict e d = Ok m ∧ graph_config m = Some (JDict mg)
    ∧ truthy (default (JBool true) (mg !! "use_multi_db")) = false.
Proof.
  intros He Hb Hd Hflag Hfalsy.
  destruct (merged_dict_graph e d eg dg b He Hb Hd) as (m & mg & Hm & Hmg & Hg & _).
  exists m, mg. split; [done|]. split; [done|].
  rewrite merged_graph_config_dict, Hflag in Hmg.
  change (default (JBool true) (Some flag)) with flag in Hmg.
  rewrite Hfalsy in Hmg. cbn [negb andb] in Hmg.
  apply Ok_inj, JDict_inj in Hmg. subst mg.
  destruct (truthy (default (JBool true) (eg !! "use_multi_db"))) eqn:Hmulti.
  - by rewrite !lookup_insert_ne, lookup_insert_eq by done.
  - by rewrite overwritten_lookup, decide_True by by_computation.
Qed.

Lemma downgrade_rewrite_witness :
  ∃ m mg, merged_dict (cube "alice" "cube_a" "neo4j" (JDict unflagged_A))
                      (cube "default_user" "default_cube" "neo4j" (JDict null_flag_B)) = Ok m
    ∧ graph_config m = Some (JDict mg)
    ∧ mg !! "use_multi_db" = Some (JBool false)
    ∧ mg !! "db_name" = Some (default JNone (null_flag_B !! "db_name"))
    ∧ mg !! "user_name" =
        Some (match null_flag_B !! "db_name" with
              | Some v => v
              | None => default JNone (unflagged_A !! "db_name")
              end).
Proof.
  apply (downgrade_rewrite _ _ unflagged_A null_flag_B (JStr "neo4j") JNone);
    vm_compute; reflexivity.
Defined.

Lemma single_db_default_gives_single_db_witness :
  ∃ m mg, merged_dict (cube "alice" "cube_a" "neo4j" (JDict multi_A))
                      (cube "default_user" "default_cube" "neo4j" (JDict single_B)) = Ok m
    ∧ graph_config m = Some (JDict mg)
    ∧ truthy (default (JBool true) (mg !! "use_multi_db")) = false.
Proof.
  apply (single_db_default_gives_single_db _ _ multi_A single_B (JStr "neo4j")
           (JBool false)); vm_compute; reflexivity.
Defined.

(** X6.  A missing backend tag: when the existing graph section has a
    configuration but no [backend] key, the merge raises [KeyError], after
    the graph configurations have been merged (line 97). *)
Theorem missing_backend_raises (e d egdb eg dg : dict) :
  lookup_path graph_db_path (JDict e) = Some (JDict egdb) →
  egdb !! "config" = Some (JDict eg) → egdb !! "backend" = None →
  graph_config d = Some (JDict dg) →
  merged_dict e d = Raise KeyError.
Proof.
  intros He Heg Hb (dgdb & Hd & Hdg)%graph_config_inv.
  apply merged_dict_raises_iff.
  rewrite (preserved_graph_db_both _ _ _ _ He Hd).
  rewrite (py_getitem_dict _ _ _ Heg), result_bind_Ok.
  rewrite (py_getitem_dict _ _ _ Hdg), result_bind_Ok.
  rewrite merged_graph_config_dict, result_bind_Ok.
  cbn [py_getitem]. by rewrite Hb.
Qed.

Lemma missing_backend_raises_witness :
  merged_dict (untagged_cube (JDict multi_A))
              (cube "default_user" "default_cube" "neo4j" (JDict single_B))
  = Raise KeyError.
Proof.
  apply (missing_backend_raises _ _ {[ "config" := JDict multi_A ]} multi_A single_B);
    vm_compute; reflexivity.
Defined.

(** X7.  The existing configuration matters only through its identity
    fields and its graph section: two existing configurations, nested as the
    schema nests them, with the same identity fields and the same graph
    section give the same result against the same default, whatever their
    other fields are. *)
Theorem existing_matters_only_through_identity_and_graph (e1 e2 d : dict) :
  well_shaped e1 → well_shaped e2 → well_shaped d →
  (∀ f, f ∈ preserve_fields → e1 !! f = e2 !! f) →
  lookup_path graph_db_path (JDict e1) = lookup_path graph_db_path (JDict e2) →
  merged_dict e1 d = merged_dict e2 d.
Proof.
  intros H1 H2 Hd Hid Hgraph.
  assert (restore_fields e1 d = restore_fields e2 d) as Hr.
  { apply map_eq. intros f. rewrite !restore_fields_lookup.
    destruct (decide (f ∈ preserve_fields)) as [Hf|Hf]; [|done].
    by rewrite (Hid f Hf). }
  assert (preserved_graph_db e1 d = preserved_graph_db e2 d) as Hp.
  { destruct (lookup_path graph_db_path (JDict e1)) as [g1|] eqn:Hg1.
    - destruct (lookup_path graph_db_path (JDict d)) as [gd|] eqn:Hgd.
      + rewrite (preserved_graph_db_both _ _ _ _ Hg1 Hgd).
        by rewrite (preserved_graph_db_both e2 d g1 gd).
      + by rewrite !preserved_graph_db_lacks by auto.
    - rewrite !preserved_graph_db_lacks; auto. }
  unfold merged_dict. by rewrite Hp, Hr.
Qed.

Lemma existing_matters_only_through_identity_and_graph_witness :
  merged_dict (plain_cube "alice" "cube_a" 0) (plain_cube "default_user" "default_cube" 1)
  = merged_dict (plain_cube "alice" "cube_a" 7) (plain_cube "default_user" "default_cube" 1).
Proof.
  apply existing_matters_only_through_identity_and_graph;
    try apply plain_cube_well_shaped.
  - intros f Hf. unfold preserve_fields in Hf.
    rewrite !elem_of_union, !elem_of_singleton in Hf.
    destruct Hf as [[[-> | ->] | ->] | ->]; vm_compute; reflexivity.
  - vm_compute. reflexivity.
Defined.
Lemma overwritten_self (g : dict) : overwritten g g = g.
Proof.
  apply map_eq. intros k. rewrite overwritten_lookup.
  destruct (decide (k ∈ preserve_graph_fields)); [done|]. by destruct (g !! k).
Qed.

Lemma merged_graph_config_self (g : dict) :
  merged_graph_config (JDict g) (JDict g) = Ok (JDict g).
Proof.
  rewrite merged_graph_config_dict, overwritten_self.
  by destruct (truthy (default (JBool true) (g !! "use_multi_db"))).
Qed.

Lemma restore_fields_self (c : dict) : restore_fields c c = c.
Proof.
  apply map_eq. intros f. rewrite restore_fields_lookup.
  destruct (decide (f ∈ preserve_fields)); [|done]. by destruct (c !! f).
Qed.

(** X10.  Merging a configuration with itself returns it unchanged, when its
    graph section consists of [backend] and [config]. *)
Theorem merge_with_itself (c cg : dict) (b : json) :
  lookup_path graph_db_path (JDict c)
    = Some (JDict {[ "backend" := b; "config" := JDict cg ]}) →
  merged_dict c c = Ok c.
Proof.
  intros Hc.
  assert (graph_config c = Some (JDict cg)) as Hcfg.
  { apply graph_config_inv. eexists. split; [exact Hc|].
    rewrite lookup_insert_ne by done. apply lookup_singleton_eq. }
  assert (graph_backend c = Some b) as Hb.
  { apply graph_backend_inv. eexists. split; [exact Hc|]. apply lookup_insert_eq. }
  destruct (preserved_graph_db_graph c c cg cg b Hcfg Hb Hcfg) as (mg & Hmg & Hp).
  rewrite merged_graph_config_self in Hmg. apply Ok_inj, JDict_inj in Hmg. subst mg.
  destruct (merged_dict_Some _ _ _ Hp) as (tm & cfg & Htm & Hcfgd & ->).
  f_equal. rewrite restore_fields_self.
  apply graph_db_path_inv in Hc as (tm' & cfg' & Htm' & Hcfg' & Hg).
  rewrite Htm in Htm'. apply (inj Some), JDict_inj in Htm'. subst tm'.
  rewrite Hcfgd in Hcfg'. apply (inj Some), JDict_inj in Hcfg'. subst cfg'.
  rewrite (insert_id cfg) by done. rewrite (insert_id tm) by done.
  by apply insert_id.
Qed.

Lemma merge_with_itself_witness :
  merged_dict (cube "alice" "cube_a" "neo4j" (JDict multi_A))
              (cube "alice" "cube_a" "neo4j" (JDict multi_A))
  = Ok (cube "alice" "cube_a" "neo4j" (JDict multi_A)).
Proof.
  apply (merge_with_itself _ multi_A (JStr "neo4j")). vm_compute. reflexivity.
Defined.

(** X11.  The top-level keys of the merged tree are those of the default,
    and the identity fields the existing configuration has: no field of the
    default is dropped, and nothing but an identity field is taken over from
    the existing configuration at top level. *)
Theorem merged_top_level_keys (e d m : dict) :
  merged_dict e d = Ok m →
  dom m = dom d ∪ (preserve_fields ∩ dom e).
Proof.
  intros Hm.
  assert (dom (restore_fields e d) = dom d ∪ (preserve_fields ∩ dom e)) as Hr.
  { apply set_eq. intros f.
    rewrite elem_of_dom, restore_fields_lookup, elem_of_union, elem_of_intersection,
      !elem_of_dom.
    destruct (decide (f ∈ preserve_fields)) as [Hf|Hf]; [|tauto].
    destruct (e !! f) as [v|]; split; intros H.
    - right. split; [done|by exists v].
    - by exists v.
    - by left.
    - destruct H as [H|[_ [x Hx]]]; [done|discriminate Hx]. }
  destruct (merged_dict_inv _ _ _ Hm) as [[_ ->]|(g & tm & cfg & _ & Hd & _ & ->)];
    [done|].
  rewrite dom_insert_L, Hr.
  assert ("text_mem" ∈ dom d) as Htm by (apply elem_of_dom; eauto).
  apply set_eq. intros f. rewrite !elem_of_union, elem_of_singleton.
  split; [intros [->|H]; [by left|done]|auto].
Qed.

Lemma merged_top_level_keys_witness :
  dom (<["user_id" := JStr "alice"]>
         (<["cube_id" := JStr "cube_a"]> (plain_cube "default_user" "default_cube" 1)))
  = dom (plain_cube "default_user" "default_cube" 1)
    ∪ (preserve_fields ∩ dom (plain_cube "alice" "cube_a" 0)).
Proof.
  apply (merged_top_level_keys (plain_cube "alice" "cube_a" 0)).
  vm_compute. reflexivity.
Defined.






(** X13.  Merging a configuration record with itself gives the record back,
    when dumping and validating round-trip and its graph section consists of
    [backend] and [config]. *)
Theorem merge_config_with_itself {Config : Type}
    (model_dump : Config → dict) (model_validate : dict → option Config)
    (c : Config) (cg : dict) (b : json) :
  (∀ c', model_validate (model_dump c') = Some c') →
  lookup_path graph_db_path (JDict (model_dump c))
    = Some (JDict {[ "backend" := b; "config" := JDict cg ]}) →
  merge_config_with_default model_dump model_validate c c = Ok c.
Proof.
  intros Hround Hc. unfold merge_config_with_default. cbv zeta.
  rewrite (merge_with_itself _ cg b Hc), result_bind_Ok. by rewrite Hround.
Qed.

Lemma merge_config_with_itself_witness :
  merge_config_with_default id Some
    (cube "alice" "cube_a" "neo4j" (JDict multi_A))
    (cube "alice" "cube_a" "neo4j" (JDict multi_A))
  = Ok (cube "alice" "cube_a" "neo4j" (JDict multi_A)).
Proof.
  apply (merge_config_with_itself id Some _ multi_A (JStr "neo4j")).
  - intros c'. reflexivity.
  - vm_compute. reflexivity.
Defined.
End TreeMore.

Module StoreMore.
Import Store StoreFacts.

(** X8.  Lines 59-113 write to no object that exists when they start,
    whatever their two arguments are and whether they return or raise:
    neither dump is modified, although the result shares values with both. *)
Theorem merged_dict_writes_only_new (fuel : nat) (existing_dict default_dict : val)
    (σ : store) :
  σ `prefix_of` (merged_dict fuel existing_dict default_dict σ).2.
Proof. by apply (wp_merged_dict σ fuel existing_dict default_dict σ). Qed.

Lemma wp_frame {A} (m : M A) (σ : store) (F : store → Prop)
    (Q : result A → store → Prop) :
  wp m σ (fun _ s => F s) → wp m σ Q → wp m σ (fun r s => F s ∧ Q r s).
Proof. unfold wp. auto. Qed.

Lemma wp_bind_any {A B} (m : M A) (f : A → M B) (σ : store)
    (Q : result B → store → Prop) :
  (∀ a s, wp (f a) s Q) → (∀ e s, Q (Raise e) s) → wp (m ≫= f) σ Q.
Proof.
  intros Hf He. apply wp_bind. unfold wp at 1.
  destruct (m σ) as [[a|e] s]; cbn [fst snd]; auto.
Qed.

(** X9.  The merged tree is a new object: when the default dump is a
    container and the merge returns, it returns a reference to an object
    created during the call. *)
Theorem merged_dict_returns_new_object (fuel : nat) (existing_dict : val) (l : loc)
    (σ : store) (v : val) :
  (merged_dict fuel existing_dict (VRef l) σ).1 = Ok v →
  ∃ l', v = VRef l' ∧ (length σ ≤ l')%nat.
Proof.
  revert v.
  change (wp (merged_dict fuel existing_dict (VRef l)) σ
            (fun r _ => ∀ v, r = Ok v → ∃ l', v = VRef l' ∧ (length σ ≤ l')%nat)).
  unfold merged_dict. apply wp_bind.
  eapply wp_mono; [by apply (keeps_preserved_graph_db σ)|].
  intros [preserved|e] s1 [Hs1 _]; [|done].
  apply wp_bind. eapply wp_mono; [apply wp_deepcopy|].
  intros [merged|e] s2 (_ & _ & Hroot); [|done].
  destruct (Hroot merged eq_refl) as [-> _].
  repeat (apply wp_bind_any; [intros ? ?|done]).
  apply wp_ret. intros v [= <-]. eexists. split; [done|]. by apply prefix_length.
Qed.
Lemma merged_dict_returns_new_object_witness :
  ∃ l', VRef 14 = VRef l' ∧ (length Samples.sample_store ≤ l')%nat.
Proof.
  apply (merged_dict_returns_new_object 8 (VRef 0) 5 Samples.sample_store (VRef 14)).
  vm_compute. reflexivity.
Defined.
End StoreMore.
